(** * Frame: navigation bookkeeping and the navigation driver

    A shallow embedding of [packages/puppeteer-core/src/common/Frame.ts].

    The synchronous bookkeeping methods of the class ([_navigated],
    [_onLifecycleEvent], [_detach], ...) are pure functions on a [Frame]
    record.  The asynchronous methods ([goto], [waitForNavigation],
    [addScriptTag], [addStyleTag], [waitForSelector], [waitForXPath]) talk
    to collaborators that live in other files (the CDP session, the
    lifecycle watcher, the isolated worlds, the query handlers, [fs]); they
    are programs over a signature of commands, run against an arbitrary
    handler that plays the collaborators.  A handler gives one answer per
    call: no method awaits the same promise twice on one path, so this
    loses no behaviour of the collaborators. *)

From Stdlib Require Import Ascii.
From stdpp Require Import base strings gmap list.

Open Scope string_scope.
Open Scope list_scope.

(** ** JavaScript values *)

(** A value of type [string | undefined]. *)
Abbreviation jsstring := (option string).

(** [!!v] for [v : string | undefined]: [undefined] and the empty string are
    falsy, every other string is truthy. *)
Definition truthy (v : jsstring) : bool :=
  match v with
  | Some s => negb (String.eqb s "")
  | None => false
  end.

(** [v || d] *)
Definition js_or (v : jsstring) (d : string) : string :=
  match v with
  | Some s => if truthy v then s else d
  | None => d
  end.

(** [v ?? d] and the destructuring default [{v = d}]: only [undefined] is
    replaced. *)
Definition js_default (v : jsstring) (d : string) : string :=
  match v with
  | Some s => s
  | None => d
  end.

(** [+b] for a boolean [b]. *)
Definition to_number (b : bool) : Z := if b then 1 else 0.

(** Error objects.  The class stands for what [instanceof] tests. *)
Inductive ErrorClass := ClassError | ClassTypeError | ClassTimeoutError | ClassProtocolError.

Record JsError := mkJsError { err_class : ErrorClass; err_message : string }.

(** [new Error(message)] *)
Definition new_Error (message : string) : JsError := mkJsError ClassError message.

(** What a [throw] or a rejected promise carries.  [isErrorLike] of
    [util/ErrorLike.ts] is a type guard (an object with a [name] and a
    [message]); the guard is the constructor here. *)
Inductive Thrown :=
| ErrorLike (e : JsError)
| NotErrorLike (v : string).

Definition isErrorLike (t : Thrown) : bool :=
  match t with
  | ErrorLike _ => true
  | NotErrorLike _ => false
  end.

(** [error instanceof TypeError] *)
Definition instanceof_TypeError (t : Thrown) : bool :=
  match t with
  | ErrorLike (mkJsError ClassTypeError _) => true
  | _ => false
  end.

(** ** Collaborators held by a frame *)

(** A CDP session and a frame manager are handles; a frame only compares
    and forwards them. *)
Definition CDPSession := nat.

Record FrameManager := mkFrameManager { client : CDPSession }.

Record ExecutionContext := mkExecutionContext { contextId : nat }.

Inductive WorldKind := MAIN_WORLD | PUPPETEER_WORLD.

(** Modelled from the spec: [IsolatedWorld.ts] is not among the sources.
    An isolated world "owns at most one live Execution Context at a time",
    and its detach "clears the live context permanently; all pending/future
    executionContext() calls fail". *)
Record IsolatedWorld := mkIsolatedWorld {
  world_context : option ExecutionContext;
  world_detached : bool
}.

(** Modelled from the spec: [new IsolatedWorld(frame)], a world with no
    live context yet. *)
Definition new_IsolatedWorld : IsolatedWorld := mkIsolatedWorld None false.

(** Modelled from the spec: [IsolatedWorld._detach()], "clears the live
    context permanently". *)
Definition IsolatedWorld_detach (w : IsolatedWorld) : IsolatedWorld :=
  mkIsolatedWorld None true.

(** [IsolatedWorldChart]: an object with exactly the two world kinds as
    keys. *)
Record IsolatedWorldChart := mkChart {
  main_world : IsolatedWorld;
  puppeteer_world : IsolatedWorld
}.

Definition chart_get (k : WorldKind) (c : IsolatedWorldChart) : IsolatedWorld :=
  match k with
  | MAIN_WORLD => main_world c
  | PUPPETEER_WORLD => puppeteer_world c
  end.

Definition chart_alter (g : IsolatedWorld -> IsolatedWorld) (k : WorldKind)
    (c : IsolatedWorldChart) : IsolatedWorldChart :=
  match k with
  | MAIN_WORLD => mkChart (g (main_world c)) (puppeteer_world c)
  | PUPPETEER_WORLD => mkChart (main_world c) (g (puppeteer_world c))
  end.

(** The fields of [Protocol.Page.Frame] that the class reads. *)
Record FramePayload := mkFramePayload {
  payload_id : string;
  payload_parentId : jsstring;
  payload_loaderId : string;
  payload_name : jsstring;
  payload_url : string;
  payload_urlFragment : jsstring
}.

(** ** The Frame record *)

(** The private fields [#url], [#detached] and [#client] are spelled
    [hash_...]. *)
Record Frame := mkFrame {
  hash_url : string;
  hash_detached : bool;
  hash_client : CDPSession;
  worlds : IsolatedWorldChart;
  _frameManager : FrameManager;
  _id : string;
  _loaderId : string;
  _name : jsstring;
  _hasStartedLoading : bool;
  _lifecycleEvents : gset string;
  _parentId : jsstring
}.

Section Setters.
Variable f : Frame.

Definition set_url (v : string) : Frame :=
  mkFrame v (hash_detached f) (hash_client f) (worlds f) (_frameManager f)
    (_id f) (_loaderId f) (_name f) (_hasStartedLoading f)
    (_lifecycleEvents f) (_parentId f).

Definition set_detached (v : bool) : Frame :=
  mkFrame (hash_url f) v (hash_client f) (worlds f) (_frameManager f)
    (_id f) (_loaderId f) (_name f) (_hasStartedLoading f)
    (_lifecycleEvents f) (_parentId f).

Definition set_client (v : CDPSession) : Frame :=
  mkFrame (hash_url f) (hash_detached f) v (worlds f) (_frameManager f)
    (_id f) (_loaderId f) (_name f) (_hasStartedLoading f)
    (_lifecycleEvents f) (_parentId f).

Definition set_worlds (v : IsolatedWorldChart) : Frame :=
  mkFrame (hash_url f) (hash_detached f) (hash_client f) v (_frameManager f)
    (_id f) (_loaderId f) (_name f) (_hasStartedLoading f)
    (_lifecycleEvents f) (_parentId f).

Definition set_loaderId (v : string) : Frame :=
  mkFrame (hash_url f) (hash_detached f) (hash_client f) (worlds f)
    (_frameManager f) (_id f) v (_name f) (_hasStartedLoading f)
    (_lifecycleEvents f) (_parentId f).

Definition set_name (v : jsstring) : Frame :=
  mkFrame (hash_url f) (hash_detached f) (hash_client f) (worlds f)
    (_frameManager f) (_id f) (_loaderId f) v (_hasStartedLoading f)
    (_lifecycleEvents f) (_parentId f).

Definition set_hasStartedLoading (v : bool) : Frame :=
  mkFrame (hash_url f) (hash_detached f) (hash_client f) (worlds f)
    (_frameManager f) (_id f) (_loaderId f) (_name f) v
    (_lifecycleEvents f) (_parentId f).

Definition set_lifecycleEvents (v : gset string) : Frame :=
  mkFrame (hash_url f) (hash_detached f) (hash_client f) (worlds f)
    (_frameManager f) (_id f) (_loaderId f) (_name f)
    (_hasStartedLoading f) v (_parentId f).
End Setters.

(** ** Synchronous methods *)

(** [updateClient(client)]: rebinds the session and replaces both worlds
    by fresh ones. *)
Definition updateClient (c : CDPSession) (f : Frame) : Frame :=
  set_worlds (set_client f c) (mkChart new_IsolatedWorld new_IsolatedWorld).

(** The constructor.  The field initialisers run first ([_name] stays
    undefined, the event set is a fresh [Set]), then the body. *)
Definition new_Frame (frameManager : FrameManager) (frameId : string)
    (parentFrameId : jsstring) (c : CDPSession) : Frame :=
  updateClient c
    (mkFrame "" false c (mkChart new_IsolatedWorld new_IsolatedWorld)
       frameManager frameId "" None false ∅ parentFrameId).

Definition isOOPFrame (f : Frame) : bool :=
  negb (Nat.eqb (hash_client f) (client (_frameManager f))).

Definition _client (f : Frame) : CDPSession := hash_client f.

(** [name()]: [this._name || ''] *)
Definition name (f : Frame) : string := js_or (_name f) "".

Definition url (f : Frame) : string := hash_url f.

Definition isDetached (f : Frame) : bool := hash_detached f.

Definition _navigated (framePayload : FramePayload) (f : Frame) : Frame :=
  let f := set_name f (payload_name framePayload) in
  set_url f (payload_url framePayload +:+ js_or (payload_urlFragment framePayload) "").

Definition _navigatedWithinDocument (u : string) (f : Frame) : Frame :=
  set_url f u.

(** The [if] has no [else]: the event name is added in both cases, after
    the reset when it is ["init"]. *)
Definition _onLifecycleEvent (loaderId name : string) (f : Frame) : Frame :=
  let f :=
    if String.eqb name "init"
    then set_lifecycleEvents (set_loaderId f loaderId) ∅
    else f in
  set_lifecycleEvents f ({[ name ]} ∪ _lifecycleEvents f).

Definition _onLoadingStopped (f : Frame) : Frame :=
  let f := set_lifecycleEvents f ({[ "DOMContentLoaded" ]} ∪ _lifecycleEvents f) in
  set_lifecycleEvents f ({[ "load" ]} ∪ _lifecycleEvents f).

Definition _onLoadingStarted (f : Frame) : Frame :=
  set_hasStartedLoading f true.

Definition _detach (f : Frame) : Frame :=
  let f := set_detached f true in
  let f := set_worlds f (chart_alter IsolatedWorld_detach MAIN_WORLD (worlds f)) in
  set_worlds f (chart_alter IsolatedWorld_detach PUPPETEER_WORLD (worlds f)).

(** Every method of the class that writes a field of the frame.  The
    asynchronous methods below only read the frame. *)
Inductive FrameOp :=
| OpUpdateClient (c : CDPSession)
| OpNavigated (framePayload : FramePayload)
| OpNavigatedWithinDocument (u : string)
| OpLifecycleEvent (loaderId name : string)
| OpLoadingStopped
| OpLoadingStarted
| OpDetach.

Definition apply_op (op : FrameOp) (f : Frame) : Frame :=
  match op with
  | OpUpdateClient c => updateClient c f
  | OpNavigated p => _navigated p f
  | OpNavigatedWithinDocument u => _navigatedWithinDocument u f
  | OpLifecycleEvent l n => _onLifecycleEvent l n f
  | OpLoadingStopped => _onLoadingStopped f
  | OpLoadingStarted => _onLoadingStarted f
  | OpDetach => _detach f
  end.

(** The operations of [ops] applied in order, first to last. *)
Definition apply_ops (ops : list FrameOp) (f : Frame) : Frame :=
  fold_left (fun g op => apply_op op g) ops f.

Definition is_navigated (op : FrameOp) : bool :=
  match op with
  | OpNavigated _ => true
  | _ => false
  end.

(** ** Collaborators of the asynchronous methods *)

Inductive PuppeteerLifeCycleEvent := load | domcontentloaded | networkidle0 | networkidle2.

(** [PuppeteerLifeCycleEvent | PuppeteerLifeCycleEvent[]] *)
Inductive WaitUntil :=
| OneEvent (e : PuppeteerLifeCycleEvent)
| EventList (es : list PuppeteerLifeCycleEvent).

Record GotoOptions := mkGotoOptions {
  goto_referer : jsstring;
  goto_referrerPolicy : jsstring;
  goto_timeout : option Z;
  goto_waitUntil : option WaitUntil
}.

Record WaitForNavigationOptions := mkWaitForNavigationOptions {
  wait_timeout : option Z;
  wait_waitUntil : option WaitUntil
}.

(** The parameters and the response of the [Page.navigate] command. *)
Record NavigateParams := mkNavigateParams {
  nav_url : string;
  nav_referrer : jsstring;
  nav_frameId : string;
  nav_referrerPolicy : jsstring
}.

Record NavigateResponse := mkNavigateResponse {
  resp_frameId : string;
  resp_loaderId : jsstring;
  resp_errorText : jsstring
}.

Record HTTPResponse := mkHTTPResponse { response_id : nat }.

(** The three promises a [LifecycleWatcher] hands out.  Each fulfils with
    an [Error] or with [undefined]; Frame.ts throws the value itself. *)
Inductive WatcherPromise :=
| timeoutOrTerminationPromise
| sameDocumentNavigationPromise
| newDocumentNavigationPromise.

(** A remote object handle. *)
Definition Handle := nat.

Record FrameAddScriptTagOptions := mkScriptTagOptions {
  script_url : jsstring;
  script_path : jsstring;
  script_content : jsstring;
  script_type : jsstring;
  script_id : jsstring
}.

Record FrameAddStyleTagOptions := mkStyleTagOptions {
  style_url : jsstring;
  style_path : jsstring;
  style_content : jsstring
}.

(** [{...options, type, content}]: the options with [type] and [content]
    overwritten by the local strings. *)
Record ScriptTagArg := mkScriptTagArg {
  arg_options : FrameAddScriptTagOptions;
  arg_type : string;
  arg_content : string
}.

(** The page functions the two injection methods evaluate remotely, with
    their argument. *)
Inductive RemoteCall :=
| inject_script (arg : ScriptTagArg)
| inject_style (arg : FrameAddStyleTagOptions).

Record QueryHandler := mkQueryHandler {
  handler_name : string;
  has_waitFor : bool
}.

Record WaitForSelectorOptions := mkWaitForSelectorOptions {
  sel_visible : option bool;
  sel_hidden : option bool;
  sel_timeout : option Z
}.

(** What awaiting a promise gives: its value, the value it rejected with,
    or nothing, ever. *)
Inductive Settled (A : Type) :=
| Fulfilled (a : A)
| Rejected (t : Thrown)
| Pending.
Arguments Fulfilled {A} a.
Arguments Rejected {A} t.
Arguments Pending {A}.

(** What awaiting a race of watcher promises gives. *)
Inductive Await (A : Type) :=
| Settles (a : A)
| NeverSettles.
Arguments Settles {A} a.
Arguments NeverSettles {A}.

(** What [await Promise.race([navigate(...), p1, ...])] observes first: the
    [Page.navigate] command of the running [navigate] settles, or one of
    the watcher promises does, or none ever does. *)
Inductive NavigateRace :=
| SendFulfilled (response : NavigateResponse)
| SendRejected (t : Thrown)
| WatcherFirst (v : option JsError)
| NoneSettles.

(** The calls a frame makes on its collaborators. *)
Inductive Cmd :=
| extraHTTPHeaders
| navigationTimeout
| new_LifecycleWatcher (frameId : string) (waitUntil : WaitUntil) (timeout : Z)
| send_Page_navigate (c : CDPSession) (params : NavigateParams)
| race_navigate (ps : list WatcherPromise)
| race (ps : list WatcherPromise)
| navigationResponse
| dispose
| import_fs
| importFS
| readFile (path encoding : string)
| evaluateHandle (w : WorldKind) (call : RemoteCall)
| transferHandle (w : WorldKind) (h : Handle)
| getQueryHandlerAndSelector (selector : string)
| queryHandler_waitFor (q : QueryHandler) (frameId updatedSelector : string)
    (options : WaitForSelectorOptions).

(** The type of the answer to each call. *)
Definition Ans (c : Cmd) : Type :=
  match c with
  | extraHTTPHeaders => gmap string string
  | navigationTimeout => Z
  | new_LifecycleWatcher _ _ _ => unit
  | send_Page_navigate _ _ => unit
  | race_navigate _ => NavigateRace
  | race _ => Await (option JsError)
  | navigationResponse => Settled (option HTTPResponse)
  | dispose => unit
  | import_fs => Settled unit
  | importFS => Settled unit
  | readFile _ _ => Settled string
  | evaluateHandle _ _ => Settled Handle
  | transferHandle _ _ => Settled Handle
  | getQueryHandlerAndSelector _ => (string * QueryHandler)%type
  | queryHandler_waitFor _ _ _ _ => Settled (option Handle)
  end.

(** ** Programs *)

Module Prog.

(** An asynchronous method body: it returns, throws, stays suspended on a
    promise that never settles, or calls a collaborator and goes on with
    the answer. *)
Inductive prog (R : Type) : Type :=
| Ret (r : R)
| Throw (e : Thrown)
| Hang
| Vis (c : Cmd) (k : Ans c -> prog R).
Arguments Ret {R} r.
Arguments Throw {R} e.
Arguments Hang {R}.
Arguments Vis {R} c k.

Fixpoint bind {A B : Type} (p : prog A) (g : A -> prog B) : prog B :=
  match p with
  | Ret r => g r
  | Throw e => Throw e
  | Hang => Hang
  | Vis c k => Vis c (fun a => bind (k a) g)
  end.

(** [try { p } catch (error) { handler error }] *)
Fixpoint try_catch {A : Type} (p : prog A) (handler : Thrown -> prog A) : prog A :=
  match p with
  | Ret r => Ret r
  | Throw e => handler e
  | Hang => Hang
  | Vis c k => Vis c (fun a => try_catch (k a) handler)
  end.

(** [try { p } finally { fin }]: [fin] runs when [p] returns and when it
    throws, not while it is suspended. *)
Fixpoint try_finally {A : Type} (p : prog A) (fin : prog unit) : prog A :=
  match p with
  | Ret r => bind fin (fun _ => Ret r)
  | Throw e => bind fin (fun _ => Throw e)
  | Hang => Hang
  | Vis c k => Vis c (fun a => try_finally (k a) fin)
  end.

(** A synchronous call. *)
Definition call (c : Cmd) : prog (Ans c) := Vis c Ret.

(** [await] of a promise. *)
Definition settle {A : Type} (s : Settled A) : prog A :=
  match s with
  | Fulfilled a => Ret a
  | Rejected e => Throw e
  | Pending => Hang
  end.

Definition settle_race {A : Type} (s : Await A) : prog A :=
  match s with
  | Settles a => Ret a
  | NeverSettles => Hang
  end.

(** How a call of a method ends. *)
Inductive Outcome (R : Type) :=
| Returned (r : R)
| Threw (e : Thrown)
| Suspended.
Arguments Returned {R} r.
Arguments Threw {R} e.
Arguments Suspended {R}.

(** The collaborators: an answer for every call. *)
Definition Handler := forall c : Cmd, Ans c.

(** The calls a program makes, in order, when the collaborators are [h]. *)
Fixpoint trace {R : Type} (h : Handler) (p : prog R) : list Cmd :=
  match p with
  | Vis c k => c :: trace h (k (h c))
  | _ => []
  end.

(** How the program ends when the collaborators are [h]. *)
Fixpoint outcome {R : Type} (h : Handler) (p : prog R) : Outcome R :=
  match p with
  | Ret r => Returned r
  | Throw e => Threw e
  | Hang => Suspended
  | Vis c k => outcome h (k (h c))
  end.

Definition run {R : Type} (h : Handler) (p : prog R) : list Cmd * Outcome R :=
  (trace h p, outcome h p).

Definition completes {R : Type} (o : Outcome R) : bool :=
  match o with
  | Suspended => false
  | _ => true
  end.

End Prog.

Import Prog.

#[global] Instance Prog_ret : MRet prog := @Ret.
#[global] Instance Prog_bind : MBind prog := fun A B g p => bind p g.

(** [assert(cond, message)] of [util/assert.ts]. *)
Definition assert (cond : bool) (message : string) : prog unit :=
  if cond then Ret tt else Throw (ErrorLike (new_Error message)).

(** [s.replace(/\n/g, '')] *)
Fixpoint remove_newlines (s : string) : string :=
  match s with
  | EmptyString => EmptyString
  | String c r =>
      if Ascii.eqb c "010"%char then remove_newlines r
      else String c (remove_newlines r)
  end.

(** ** The navigation driver *)

(** The inner function [navigate] of [goto], from the moment its
    [await client.send('Page.navigate', ...)] settles with [s].  The
    closure variable [ensureNewDocumentNavigation] is passed in and out.
    Only the [await] can throw inside the [try], so the [catch] sees the
    variable as it came in. *)
Definition navigate (url : string) (s : Settled NavigateResponse)
    (ensureNewDocumentNavigation : bool) : prog (bool * option JsError) :=
  try_catch
    (response ← settle s;
     let ensureNewDocumentNavigation := truthy (resp_loaderId response) in
     if bool_decide (resp_errorText response = Some "net::ERR_HTTP_RESPONSE_CODE_FAILURE")
     then mret (ensureNewDocumentNavigation, None)
     else
       match resp_errorText response with
       | Some errorText =>
           if truthy (Some errorText)
           then mret (ensureNewDocumentNavigation,
                      Some (new_Error (errorText +:+ " at " +:+ url)))
           else mret (ensureNewDocumentNavigation, None)
       | None => mret (ensureNewDocumentNavigation, None)
       end)
    (fun error =>
       match error with
       | ErrorLike e => mret (ensureNewDocumentNavigation, Some e)
       | NotErrorLike _ => Throw error
       end).

(** [navigate], up to its [await]: the command is sent. *)
Definition navigate_send (c : CDPSession) (url : string)
    (referrer referrerPolicy : jsstring) (frameId : string) : prog unit :=
  call (send_Page_navigate c (mkNavigateParams url referrer frameId referrerPolicy)).

(** [goto].  The call [navigate(...)] inside the first [Promise.race] runs
    at once up to its [await], which sends the command; the race then
    settles by whichever comes first, the command (and [navigate] resumes)
    or the watcher's promise (and [navigate] has not yet touched
    [ensureNewDocumentNavigation]).  Both races stand before the [try]. *)
Definition goto (f : Frame) (url : string) (options : GotoOptions)
    : prog (option HTTPResponse) :=
  referer ← match goto_referer options with
            | Some r => mret (Some r)
            | None => headers ← call extraHTTPHeaders; mret (headers !! "referer")
            end;
  referrerPolicy ← match goto_referrerPolicy options with
                   | Some r => mret (Some r)
                   | None => headers ← call extraHTTPHeaders;
                             mret (headers !! "referer-policy")
                   end;
  let waitUntil := default (EventList [load]) (goto_waitUntil options) in
  timeout ← match goto_timeout options with
            | Some ms => mret ms
            | None => call navigationTimeout
            end;
  let ensureNewDocumentNavigation := false in
  _ ← call (new_LifecycleWatcher (_id f) waitUntil timeout);
  _ ← navigate_send (hash_client f) url referer referrerPolicy (_id f);
  first ← call (race_navigate [timeoutOrTerminationPromise]);
  '(ensureNewDocumentNavigation, error) ←
    match first with
    | SendFulfilled response =>
        navigate url (Fulfilled response) ensureNewDocumentNavigation
    | SendRejected e => navigate url (Rejected e) ensureNewDocumentNavigation
    | WatcherFirst v => mret (ensureNewDocumentNavigation, v)
    | NoneSettles => Hang
    end;
  error ← match (error : option JsError) with
          | None =>
              let navigationPromise :=
                if (ensureNewDocumentNavigation : bool)
                then newDocumentNavigationPromise
                else sameDocumentNavigationPromise in
              w ← call (race [timeoutOrTerminationPromise; navigationPromise]);
              settle_race w
          | Some _ => mret error
          end;
  try_finally
    (match error with
     | Some e => Throw (ErrorLike e)
     | None => r ← call navigationResponse; settle r
     end)
    (call dispose).

Definition waitForNavigation (f : Frame) (options : WaitForNavigationOptions)
    : prog (option HTTPResponse) :=
  let waitUntil := default (EventList [load]) (wait_waitUntil options) in
  timeout ← match wait_timeout options with
            | Some ms => mret ms
            | None => call navigationTimeout
            end;
  _ ← call (new_LifecycleWatcher (_id f) waitUntil timeout);
  w ← call (race [timeoutOrTerminationPromise;
                  sameDocumentNavigationPromise;
                  newDocumentNavigationPromise]);
  error ← settle_race w;
  try_finally
    (match error with
     | Some e => Throw (ErrorLike e)
     | None => r ← call navigationResponse; settle r
     end)
    (call dispose).

(** ** Waiting for selectors *)

Definition waitForSelector (f : Frame) (selector : string)
    (options : WaitForSelectorOptions) : prog (option Handle) :=
  '(updatedSelector, queryHandler) ← call (getQueryHandlerAndSelector selector);
  _ ← assert (has_waitFor queryHandler) "Query handler does not support waiting";
  r ← call (queryHandler_waitFor queryHandler (_id f) updatedSelector options);
  settle r.

Definition waitForXPath (f : Frame) (xpath : string)
    (options : WaitForSelectorOptions) : prog (option Handle) :=
  let xpath := if String.prefix "//" xpath then "." +:+ xpath else xpath in
  waitForSelector f ("xpath/" +:+ xpath) options.

(** ** Script and style injection *)

Definition exactly_one_message : string :=
  "Exactly one of `url`, `path`, or `content` must be specified.".

Definition node_only_message : string :=
  "Can only pass a file path in a Node-like environment.".

(** [try { fs = (await import ...).promises } catch (error) { ... }] *)
Definition load_fs (import : prog (Settled unit)) : prog unit :=
  try_catch
    (r ← import;
     settle r)
    (fun error =>
       if instanceof_TypeError error
       then Throw (ErrorLike (new_Error node_only_message))
       else Throw error).

Definition addScriptTag (f : Frame) (options : FrameAddScriptTagOptions)
    : prog Handle :=
  let content := js_default (script_content options) "" in
  let type := script_type options in
  let path := script_path options in
  if negb (to_number (truthy (script_url options)) + to_number (truthy path)
           + to_number (truthy (Some content)) =? 1)%Z
  then Throw (ErrorLike (new_Error exactly_one_message))
  else
    content ← match path with
              | Some file =>
                  if truthy path then
                    _ ← load_fs (call import_fs);
                    r ← call (readFile file "utf8");
                    data ← settle r;
                    mret (data +:+ "//# sourceURL=" +:+ remove_newlines file)
                  else mret content
              | None => mret content
              end;
    let type := js_default type "text/javascript" in
    r ← call (evaluateHandle PUPPETEER_WORLD
                (inject_script (mkScriptTagArg options type content)));
    h ← settle r;
    r ← call (transferHandle MAIN_WORLD h);
    settle r.

(** In the [path] branch the method writes the file's text back into the
    caller's [options] object, the object it then sends. *)
Definition addStyleTag (f : Frame) (options : FrameAddStyleTagOptions)
    : prog Handle :=
  let content := js_default (style_content options) "" in
  let path := style_path options in
  if negb (to_number (truthy (style_url options)) + to_number (truthy path)
           + to_number (truthy (Some content)) =? 1)%Z
  then Throw (ErrorLike (new_Error exactly_one_message))
  else
    options ← match path with
              | Some file =>
                  if truthy path then
                    _ ← load_fs (call importFS);
                    r ← call (readFile file "utf8");
                    data ← settle r;
                    let content := data +:+ "/*# sourceURL=" +:+ remove_newlines file +:+ "*/" in
                    mret (mkStyleTagOptions (style_url options) (style_path options)
                            (Some content))
                  else mret options
              | None => mret options
              end;
    r ← call (evaluateHandle PUPPETEER_WORLD (inject_style options));
    h ← settle r;
    r ← call (transferHandle MAIN_WORLD h);
    settle r.

(** ** Collaborators for concrete scenarios *)

(** Collaborators under which nothing ever settles: no extra headers, the
    default navigation timeout of 30 seconds, every promise pending. *)
Definition idle : Handler := fun c =>
  match c return Ans c with
  | extraHTTPHeaders => ∅
  | navigationTimeout => 30000%Z
  | new_LifecycleWatcher _ _ _ => tt
  | send_Page_navigate _ _ => tt
  | race_navigate _ => NoneSettles
  | race _ => NeverSettles
  | navigationResponse => Pending
  | dispose => tt
  | import_fs => Pending
  | importFS => Pending
  | readFile _ _ => Pending
  | evaluateHandle _ _ => Pending
  | transferHandle _ _ => Pending
  | getQueryHandlerAndSelector selector => (selector, mkQueryHandler "css" true)
  | queryHandler_waitFor _ _ _ _ => Pending
  end.

(** [h], except that the race against the running [navigate] ends as [a]. *)
Definition with_navigate (a : NavigateRace) (h : Handler) : Handler := fun c =>
  match c return Ans c with
  | race_navigate _ => a
  | c' => h c'
  end.

(** [h], except that a race of watcher promises ends as [g] says, given the
    promises raced. *)
Definition with_race (g : list WatcherPromise -> Await (option JsError))
    (h : Handler) : Handler := fun c =>
  match c return Ans c with
  | race ps => g ps
  | c' => h c'
  end.

(** [h], except that [watcher.navigationResponse()] settles as [r]. *)
Definition with_response (r : Settled (option HTTPResponse)) (h : Handler)
    : Handler := fun c =>
  match c return Ans c with
  | navigationResponse => r
  | c' => h c'
  end.

Definition is_new_document (p : WatcherPromise) : bool :=
  match p with
  | newDocumentNavigationPromise => true
  | _ => false
  end.

(** The watcher of a navigation that loads a new document with no time
    limit: a race settles, with no error, exactly when the new-document
    promise is among the promises raced. *)
Definition new_document_only (ps : list WatcherPromise) : Await (option JsError) :=
  if existsb is_new_document ps then Settles None else NeverSettles.

(** The watcher races a program awaited, in order. *)
Definition watcher_races (tr : list Cmd) : list (list WatcherPromise) :=
  omap (fun c => match c with race ps => Some ps | _ => None end) tr.

Definition is_dispose (c : Cmd) : bool :=
  match c with
  | dispose => true
  | _ => false
  end.

Definition is_remote_evaluation (c : Cmd) : bool :=
  match c with
  | evaluateHandle _ _ => true
  | _ => false
  end.

(** The number of times [watcher.dispose()] was called. *)
Definition disposals (tr : list Cmd) : nat := length (filter (fun c => is_dispose c = true) tr).

Definition frame0 : Frame := new_Frame (mkFrameManager 0) "F1" None 0.

Definition no_goto_options : GotoOptions := mkGotoOptions None None None None.


(** The navigate command is acknowledged with neither a loader id nor an
    error text; of the watcher's promises only the new-document one ever
    resolves. *)
Definition no_loader_scenario : Handler :=
  with_navigate (SendFulfilled (mkNavigateResponse "F1" None None))
    (with_race new_document_only idle).

(** The [Page.navigate] command rejects with a value that is not
    error-like; nothing else happens. *)
Definition rethrow_scenario : Handler :=
  with_navigate (SendRejected (NotErrorLike "boom")) idle.

(** The command answers [net::ERR_NAME_NOT_RESOLVED]. *)
Definition dns_failure_scenario : Handler :=
  with_navigate
    (SendFulfilled
       (mkNavigateResponse "F1" (Some "L1") (Some "net::ERR_NAME_NOT_RESOLVED")))
    idle.

(** The command answers the error text of a non-OK HTTP status together
    with a loader id; the new document then loads and its response is
    number 7. *)
Definition http_failure_scenario : Handler :=
  with_navigate
    (SendFulfilled
       (mkNavigateResponse "F1" (Some "L1")
          (Some "net::ERR_HTTP_RESPONSE_CODE_FAILURE")))
    (with_race new_document_only
       (with_response (Fulfilled (Some (mkHTTPResponse 7))) idle)).

(** ** Vocabulary of the statements *)

(** How many of the three sources of an injected tag are set: supplied and
    not the empty string. *)
Definition sources_set (url path content : jsstring) : nat :=
  length (List.filter truthy [url; path; content]).

Definition script_sources (o : FrameAddScriptTagOptions) : nat :=
  sources_set (script_url o) (script_path o) (script_content o).

Definition style_sources (o : FrameAddStyleTagOptions) : nat :=
  sources_set (style_url o) (style_path o) (style_content o).

(** The invalid-argument error of the two injection methods. *)
Definition invalid_argument : Thrown := ErrorLike (new_Error exactly_one_message).

(** The first thing [addScriptTag] does once its options are accepted:
    load [fs] when a path is given, evaluate remotely otherwise. *)
Definition script_first_call (o : FrameAddScriptTagOptions) : Cmd :=
  if truthy (script_path o) then import_fs
  else evaluateHandle PUPPETEER_WORLD
         (inject_script
            (mkScriptTagArg o (js_default (script_type o) "text/javascript")
               (js_default (script_content o) ""))).

Definition style_first_call (o : FrameAddStyleTagOptions) : Cmd :=
  if truthy (style_path o) then importFS
  else evaluateHandle PUPPETEER_WORLD (inject_style o).

(** The [Page.navigate] command completed without error: its response has
    no error text, or the one of a non-OK HTTP status. *)
Definition without_error (response : NavigateResponse) : Prop :=
  truthy (resp_errorText response) = false
  ∨ resp_errorText response = Some "net::ERR_HTTP_RESPONSE_CODE_FAILURE".

(** The response with its error text removed. *)
Definition clear_errorText (response : NavigateResponse) : NavigateResponse :=
  mkNavigateResponse (resp_frameId response) (resp_loaderId response) None.

(** ** Further vocabulary *)

(** The frame notifications that reset the navigation state: a lifecycle
    event named ["init"]. *)
Definition is_init_event (op : FrameOp) : bool :=
  match op with
  | OpLifecycleEvent _ eventName => String.eqb eventName "init"
  | _ => false
  end.

Definition writes_url (op : FrameOp) : bool :=
  match op with
  | OpNavigated _ | OpNavigatedWithinDocument _ => true
  | _ => false
  end.

Definition is_updateClient (op : FrameOp) : bool :=
  match op with
  | OpUpdateClient _ => true
  | _ => false
  end.

Definition is_loadingStarted (op : FrameOp) : bool :=
  match op with
  | OpLoadingStarted => true
  | _ => false
  end.

(** The calls by which [goto] reads ambient defaults. *)
Definition is_query (c : Cmd) : bool :=
  match c with
  | extraHTTPHeaders | navigationTimeout => true
  | _ => false
  end.

(** The calls that set a navigation going: a watcher is constructed, the
    command is sent. *)
Definition starts_navigation (c : Cmd) : bool :=
  match c with
  | new_LifecycleWatcher _ _ _ | send_Page_navigate _ _ | race_navigate _ => true
  | _ => false
  end.

Definition is_navigationResponse (c : Cmd) : bool :=
  match c with
  | navigationResponse => true
  | _ => false
  end.

Definition is_readFile (c : Cmd) : bool :=
  match c with
  | readFile _ _ => true
  | _ => false
  end.

(** The navigation promise [goto] picks after a response. *)
Definition navigation_promise (response : NavigateResponse) : WatcherPromise :=
  if truthy (resp_loaderId response)
  then newDocumentNavigationPromise
  else sameDocumentNavigationPromise.

(** How awaiting [watcher.navigationResponse()] inside the [try] ends. *)
Definition response_outcome (r : Settled (option HTTPResponse))
    : Outcome (option HTTPResponse) :=
  match r with
  | Fulfilled response => Returned response
  | Rejected e => Threw e
  | Pending => Suspended
  end.

(** [h], except that both ways of loading [fs] settle as [r]. *)
Definition with_import (r : Settled unit) (h : Handler) : Handler := fun c =>
  match c return Ans c with
  | import_fs => r
  | importFS => r
  | c' => h c'
  end.

(** [h], except that reading a file settles as [g] says, given the path. *)
Definition with_file (g : string -> Settled string) (h : Handler) : Handler := fun c =>
  match c return Ans c with
  | readFile path _ => g path
  | c' => h c'
  end.

(** [h], except that every remote evaluation fulfils with handle [n] and
    every transfer of a handle [k] fulfils with handle [k + 100]. *)
Definition with_worlds (n : Handle) (h : Handler) : Handler := fun c =>
  match c return Ans c with
  | evaluateHandle _ _ => Fulfilled n
  | transferHandle _ k => Fulfilled (k + 100)
  | c' => h c'
  end.

(** [h], except that every selector resolves to the query handler [q],
    unchanged, and that waiting settles as [r]. *)
Definition with_query_handler (q : QueryHandler) (r : Settled (option Handle))
    (h : Handler) : Handler := fun c =>
  match c return Ans c with
  | getQueryHandlerAndSelector selector => (selector, q)
  | queryHandler_waitFor _ _ _ _ => r
  | c' => h c'
  end.

(** The frame is detached while the command is in flight. *)
Definition detached_scenario : Handler :=
  with_navigate
    (WatcherFirst (Some (mkJsError ClassError "Navigating frame was detached")))
    idle.

(** The session closes while the command is in flight. *)
Definition closed_session_scenario : Handler :=
  with_navigate
    (SendRejected (ErrorLike (mkJsError ClassProtocolError "Session closed.")))
    idle.


(** A new document loads after the command is acknowledged with loader
    [L1]; its response is number 3. *)
Definition loaded_scenario : Handler :=
  with_navigate (SendFulfilled (mkNavigateResponse "F1" (Some "L1") None))
    (with_race (fun _ => Settles None)
       (with_response (Fulfilled (Some (mkHTTPResponse 3))) idle)).

(** A Node-like environment in which every file reads as ["body{}"]. *)
Definition node_scenario : Handler :=
  with_import (Fulfilled tt) (with_file (fun _ => Fulfilled "body{}") (with_worlds 5 idle)).

(** An environment without [fs]. *)
Definition browser_scenario : Handler :=
  with_import (Rejected (ErrorLike (mkJsError ClassTypeError "Failed to resolve module")))
    idle.

(** The calls that concern the [Page.navigate] command. *)
Definition is_command (c : Cmd) : bool :=
  match c with
  | send_Page_navigate _ _ | race_navigate _ => true
  | _ => false
  end.

Definition is_new_LifecycleWatcher (c : Cmd) : bool :=
  match c with
  | new_LifecycleWatcher _ _ _ => true
  | _ => false
  end.

(** How awaiting a promise ends a method that returns its value. *)
Definition settled_outcome {A : Type} (r : Settled A) : Outcome A :=
  match r with
  | Fulfilled a => Returned a
  | Rejected e => Threw e
  | Pending => Suspended
  end.

(** What [addScriptTag] evaluates remotely when no file is read: the
    options with the type defaulted and the content as given. *)
Definition script_evaluation (o : FrameAddScriptTagOptions) : Cmd :=
  evaluateHandle PUPPETEER_WORLD
    (inject_script
       (mkScriptTagArg o (js_default (script_type o) "text/javascript")
          (js_default (script_content o) ""))).

Definition style_evaluation (o : FrameAddStyleTagOptions) : Cmd :=
  evaluateHandle PUPPETEER_WORLD (inject_style o).

(** * Properties *)

(** ** JavaScript values *)

Lemma truthy_Some (s : string) : truthy (Some s) = true <-> s ≠ "".
Proof.
  unfold truthy. destruct (String.eqb_spec s "") as [->|Hne]; simpl.
  - split; [discriminate | congruence].
  - split; auto.
Qed.

Lemma truthy_empty : truthy (Some "") = false.
Proof. reflexivity. Qed.

Lemma js_or_empty (v : jsstring) : js_or v "" = default "" v.
Proof.
  destruct v as [s|]; [|reflexivity].
  unfold js_or. destruct (truthy (Some s)) eqn:E; [reflexivity|].
  simpl. unfold truthy in E. apply negb_false_iff in E.
  apply String.eqb_eq in E. congruence.
Qed.

(** ** Bookkeeping *)

Section Bookkeeping.
Implicit Types (f : Frame) (op : FrameOp) (ops : list FrameOp).

Lemma apply_ops_cons op ops f :
  apply_ops (op :: ops) f = apply_ops ops (apply_op op f).
Proof. reflexivity. Qed.

Lemma apply_ops_app ops1 ops2 f :
  apply_ops (ops1 ++ ops2) f = apply_ops ops2 (apply_ops ops1 f).
Proof. unfold apply_ops. apply fold_left_app. Qed.

(** No method clears [#detached]: [_detach] is its only writer after the
    constructor. *)
Lemma apply_op_keeps_detached op f :
  isDetached f = true -> isDetached (apply_op op f) = true.
Proof.
  destruct op as [c|p|u|loaderId eventName| | |]; simpl; auto.
  destruct (String.eqb eventName "init"); auto.
Qed.

Lemma apply_ops_keep_detached ops f :
  isDetached f = true -> isDetached (apply_ops ops f) = true.
Proof.
  revert f. induction ops as [|op ops IH]; intros f Hf; [exact Hf|].
  rewrite apply_ops_cons. apply IH, apply_op_keeps_detached, Hf.
Qed.

(** [_navigated] is the only writer of [_name]. *)
Lemma apply_op_keeps_name op f :
  is_navigated op = false -> _name (apply_op op f) = _name f.
Proof.
  destruct op as [c|p|u|loaderId eventName| | |]; simpl; try discriminate; auto.
  destruct (String.eqb eventName "init"); auto.
Qed.

Lemma apply_ops_keep_name ops f :
  Forall (fun op => is_navigated op = false) ops ->
  _name (apply_ops ops f) = _name f.
Proof.
  intros H. revert f. induction H as [|op ops Hop _ IH]; intros f; [reflexivity|].
  rewrite apply_ops_cons, IH. apply apply_op_keeps_name, Hop.
Qed.
End Bookkeeping.

(** C1, as the claim states it, fails: after an ["init"] event the set is
    not empty, it holds ["init"] itself. *)
Lemma onLifecycleEvent_init_not_empty :
  ¬ (_lifecycleEvents (_onLifecycleEvent "L2" "init" frame0) = ∅).
Proof.
  intros H. assert (Hin : "init" ∈ (∅ : gset string)); [|set_solver].
  rewrite <- H. vm_compute. set_solver.
Qed.

(** C1 (amended): on ["init"], [_onLifecycleEvent] replaces the loader id by
    the given one and resets the event set to exactly [{"init"}], so the
    milestones of the previous navigation are gone and ["init"] itself is
    recorded; on any other event name it adds the name to the set, whatever
    the loader id given, and leaves the frame's loader id as it was. *)
Theorem onLifecycleEvent_spec (loaderId eventName : string) (f : Frame) :
  (eventName = "init" ->
     _loaderId (_onLifecycleEvent loaderId eventName f) = loaderId
     ∧ _lifecycleEvents (_onLifecycleEvent loaderId eventName f) = {[ "init" ]})
  ∧ (eventName ≠ "init" ->
     _loaderId (_onLifecycleEvent loaderId eventName f) = _loaderId f
     ∧ _lifecycleEvents (_onLifecycleEvent loaderId eventName f)
       = {[ eventName ]} ∪ _lifecycleEvents f).
Proof.
  unfold _onLifecycleEvent. split.
  - intros ->. simpl. split; [reflexivity|]. set_solver.
  - intros Hne. apply String.eqb_neq in Hne. rewrite Hne. simpl. auto.
Qed.

Lemma onLifecycleEvent_spec_witness :
  (_loaderId (_onLifecycleEvent "L2" "init" (_onLifecycleEvent "L1" "load" frame0)) = "L2"
   ∧ _lifecycleEvents (_onLifecycleEvent "L2" "init" (_onLifecycleEvent "L1" "load" frame0))
     = {[ "init" ]})
  ∧ (_loaderId (_onLifecycleEvent "L9" "load" frame0) = _loaderId frame0
     ∧ _lifecycleEvents (_onLifecycleEvent "L9" "load" frame0)
       = {[ "load" ]} ∪ _lifecycleEvents frame0).
Proof.
  split.
  - apply (onLifecycleEvent_spec "L2" "init" (_onLifecycleEvent "L1" "load" frame0)).
    reflexivity.
  - apply (onLifecycleEvent_spec "L9" "load" frame0). discriminate.
Defined.

(** The milestones of a superseded navigation do not survive the ["init"]
    of the next one. *)
Example stale_milestones_discarded :
  let events :=
    [OpLifecycleEvent "L1" "init"; OpLifecycleEvent "L1" "a"; OpLifecycleEvent "L1" "b";
     OpLifecycleEvent "L2" "init"; OpLifecycleEvent "L2" "a"] in
  _loaderId (apply_ops events frame0) = "L2"
  ∧ "a" ∈ _lifecycleEvents (apply_ops events frame0)
  ∧ "b" ∉ _lifecycleEvents (apply_ops events frame0).
Proof. vm_compute. split; [reflexivity|]. split; set_solver. Qed.

(** C5, as the claim states it, fails: a frame navigated with an empty
    declared name answers the empty string, not its identifier. *)
Lemma name_no_fallback_to_id :
  ¬ (name (_navigated (mkFramePayload "F1" None "L1" (Some "") "https://example.com/" None)
             frame0)
     = _id (_navigated (mkFramePayload "F1" None "L1" (Some "") "https://example.com/" None)
              frame0)).
Proof. vm_compute. discriminate. Qed.

Example name_before_navigation : name frame0 = "".
Proof. reflexivity. Qed.

(** C5 (amended): [name()] returns the declared name recorded at the most
    recent navigation, and the empty string when that name is absent or
    empty (the frame's identifier is not used); no other method of the
    frame changes what [name()] returns. *)
Theorem name_spec (framePayload : FramePayload) (f : Frame) (ops : list FrameOp) :
  Forall (fun op => is_navigated op = false) ops ->
  name (apply_ops ops (_navigated framePayload f))
  = default "" (payload_name framePayload).
Proof.
  intros Hops. unfold name.
  rewrite (apply_ops_keep_name _ _ Hops), js_or_empty. reflexivity.
Qed.

Lemma name_spec_witness :
  name (apply_ops [OpLifecycleEvent "L1" "init"; OpLoadingStopped; OpDetach]
          (_navigated (mkFramePayload "F1" None "L1" (Some "main") "https://example.com/" None)
             frame0))
  = "main".
Proof.
  apply (name_spec (mkFramePayload "F1" None "L1" (Some "main") "https://example.com/" None)
           frame0 [OpLifecycleEvent "L1" "init"; OpLoadingStopped; OpDetach]).
  repeat constructor.
Defined.

(** C6: once [_detach] has run, [isDetached()] is true after any further
    sequence of frame methods, and right after [_detach] neither the main
    world nor the puppeteer world has an execution context. *)
Theorem detach_is_permanent (f : Frame) (ops : list FrameOp) :
  isDetached (apply_ops ops (_detach f)) = true
  ∧ world_context (chart_get MAIN_WORLD (worlds (_detach f))) = None
  ∧ world_context (chart_get PUPPETEER_WORLD (worlds (_detach f))) = None.
Proof.
  split; [|split; reflexivity].
  apply apply_ops_keep_detached. reflexivity.
Qed.

(** C7: [_navigated] sets the URL to the payload's URL followed by its
    fragment (nothing when the fragment is absent) and the declared name to
    the payload's; the event set, the loader id, the has-started-loading
    flag and the detached flag stay as they were. *)
Theorem navigated_spec (framePayload : FramePayload) (f : Frame) :
  url (_navigated framePayload f)
  = payload_url framePayload +:+ default "" (payload_urlFragment framePayload)
  ∧ _name (_navigated framePayload f) = payload_name framePayload
  ∧ _lifecycleEvents (_navigated framePayload f) = _lifecycleEvents f
  ∧ _loaderId (_navigated framePayload f) = _loaderId f
  ∧ _hasStartedLoading (_navigated framePayload f) = _hasStartedLoading f
  ∧ isDetached (_navigated framePayload f) = isDetached f.
Proof.
  unfold _navigated, url, isDetached. simpl.
  rewrite js_or_empty. repeat split.
Qed.

(** ** Waiting for an XPath *)

Lemma starts_with_slashes (xpath : string) :
  String.prefix "//" xpath = true <-> ∃ rest, xpath = "//" +:+ rest.
Proof.
  split.
  - destruct xpath as [|a [|b rest]]; cbn [String.prefix]; [done| |].
    + destruct (ascii_dec _ a); done.
    + destruct (ascii_dec _ a) as [<-|]; [|done].
      destruct (ascii_dec _ b) as [<-|]; [|done].
      intros _. exists rest. reflexivity.
  - intros [rest ->]. destruct rest; reflexivity.
Qed.

(** C10: [waitForXPath] hands over to [waitForSelector], with the caller's
    options, the selector ["xpath/"] followed by the expression, a ["."]
    put in front of the expression exactly when it starts with ["//"]. *)
Theorem waitForXPath_delegates (f : Frame) (options : WaitForSelectorOptions) :
  (∀ rest,
     waitForXPath f ("//" +:+ rest) options
     = waitForSelector f ("xpath/.//" +:+ rest) options)
  ∧ (∀ xpath,
       (∀ rest, xpath ≠ "//" +:+ rest) ->
       waitForXPath f xpath options = waitForSelector f ("xpath/" +:+ xpath) options).
Proof.
  split.
  - intros rest. unfold waitForXPath.
    rewrite (proj2 (starts_with_slashes ("//" +:+ rest))) by (exists rest; reflexivity).
    reflexivity.
  - intros xpath Hno. unfold waitForXPath.
    destruct (String.prefix "//" xpath) eqn:E; [|reflexivity].
    apply starts_with_slashes in E as [rest ->]. destruct (Hno rest eq_refl).
Qed.

Lemma waitForXPath_delegates_witness :
  waitForXPath frame0 "/html/body" (mkWaitForSelectorOptions None None None)
  = waitForSelector frame0 "xpath//html/body" (mkWaitForSelectorOptions None None None).
Proof.
  apply (waitForXPath_delegates frame0 (mkWaitForSelectorOptions None None None)).
  intros rest. discriminate.
Defined.

(** ** Script and style injection *)

Ltac case_source v :=
  destruct v as [[|? ?]|].

(** C4: [addScriptTag] and [addStyleTag] throw the invalid-argument error,
    having called no collaborator at all (so before any remote evaluation),
    when the number of sources set among url, path and content is not
    exactly one; when it is exactly one they do not throw there and go on
    to their first call. *)
Theorem injection_requires_exactly_one (f : Frame) (h : Handler) :
  (∀ o, script_sources o ≠ 1 ->
        run h (addScriptTag f o) = ([], Threw invalid_argument))
  ∧ (∀ o, style_sources o ≠ 1 ->
          run h (addStyleTag f o) = ([], Threw invalid_argument))
  ∧ (∀ o, script_sources o = 1 ->
          head (trace h (addScriptTag f o)) = Some (script_first_call o))
  ∧ (∀ o, style_sources o = 1 ->
          head (trace h (addStyleTag f o)) = Some (style_first_call o)).
Proof.
  split; [|split; [|split]].
  - intros [u p c ty i]. unfold script_sources, script_first_call, addScriptTag.
    case_source u; case_source p; case_source c; simpl; intros H;
      solve [reflexivity | exfalso; apply H; reflexivity].
  - intros [u p c]. unfold style_sources, style_first_call, addStyleTag.
    case_source u; case_source p; case_source c; simpl; intros H;
      solve [reflexivity | exfalso; apply H; reflexivity].
  - intros [u p c ty i]. unfold script_sources, script_first_call, addScriptTag.
    case_source u; case_source p; case_source c; simpl; intros H;
      solve [reflexivity | discriminate H].
  - intros [u p c]. unfold style_sources, style_first_call, addStyleTag.
    case_source u; case_source p; case_source c; simpl; intros H;
      solve [reflexivity | discriminate H].
Qed.

Lemma injection_requires_exactly_one_witness :
  run idle (addScriptTag frame0
              (mkScriptTagOptions (Some "https://cdn.example/a.js") None
                 (Some "let x = 1;") None None))
  = ([], Threw invalid_argument)
  ∧ run idle (addStyleTag frame0 (mkStyleTagOptions None None None))
    = ([], Threw invalid_argument)
  ∧ head (trace idle (addScriptTag frame0
                        (mkScriptTagOptions None (Some "a.js") None None None)))
    = Some import_fs
  ∧ head (trace idle (addStyleTag frame0
                        (mkStyleTagOptions None None (Some "body {}"))))
    = Some (evaluateHandle PUPPETEER_WORLD
              (inject_style (mkStyleTagOptions None None (Some "body {}")))).
Proof.
  destruct (injection_requires_exactly_one frame0 idle)
    as (Hscript_no & Hstyle_no & Hscript_yes & Hstyle_yes).
  split; [|split; [|split]].
  - apply Hscript_no. vm_compute. lia.
  - apply Hstyle_no. vm_compute. lia.
  - apply (Hscript_yes (mkScriptTagOptions None (Some "a.js") None None None)).
    reflexivity.
  - apply (Hstyle_yes (mkStyleTagOptions None None (Some "body {}"))).
    reflexivity.
Defined.

(** C9: in both injection methods an option given as the empty string
    counts as not set: with [content] the empty string as the only option
    the call throws the invalid-argument error, having called nothing; with
    a non-empty [url] next to it the call is accepted and goes on to the
    remote evaluation. *)
Theorem empty_string_counts_as_not_set (f : Frame) (h : Handler) :
  (∀ type id,
     run h (addScriptTag f (mkScriptTagOptions None None (Some "") type id))
     = ([], Threw invalid_argument))
  ∧ run h (addStyleTag f (mkStyleTagOptions None None (Some "")))
    = ([], Threw invalid_argument)
  ∧ (∀ u type id,
       u ≠ "" ->
       head (trace h (addScriptTag f (mkScriptTagOptions (Some u) None (Some "") type id)))
       = Some (evaluateHandle PUPPETEER_WORLD
                 (inject_script
                    (mkScriptTagArg (mkScriptTagOptions (Some u) None (Some "") type id)
                       (js_default type "text/javascript") ""))))
  ∧ (∀ u,
       u ≠ "" ->
       head (trace h (addStyleTag f (mkStyleTagOptions (Some u) None (Some ""))))
       = Some (evaluateHandle PUPPETEER_WORLD
                 (inject_style (mkStyleTagOptions (Some u) None (Some ""))))).
Proof.
  split; [|split; [|split]].
  - reflexivity.
  - reflexivity.
  - intros [|a u] type id Hne; [destruct Hne|]; reflexivity.
  - intros [|a u] Hne; [destruct Hne|]; reflexivity.
Qed.

Lemma empty_string_counts_as_not_set_witness :
  head (trace idle
          (addScriptTag frame0
             (mkScriptTagOptions (Some "https://cdn.example/a.js") None (Some "") None None)))
  = Some (evaluateHandle PUPPETEER_WORLD
            (inject_script
               (mkScriptTagArg
                  (mkScriptTagOptions (Some "https://cdn.example/a.js") None (Some "")
                     None None)
                  "text/javascript" "")))
  ∧ head (trace idle
            (addStyleTag frame0
               (mkStyleTagOptions (Some "https://cdn.example/a.css") None (Some ""))))
    = Some (evaluateHandle PUPPETEER_WORLD
              (inject_style
                 (mkStyleTagOptions (Some "https://cdn.example/a.css") None (Some "")))).
Proof.
  destruct (empty_string_counts_as_not_set frame0 idle) as (_ & _ & Hscript & Hstyle).
  split.
  - apply (Hscript "https://cdn.example/a.js" None None). discriminate.
  - apply (Hstyle "https://cdn.example/a.css"). discriminate.
Defined.

(** ** Programs *)

Section Programs.
Context {A B : Type}.
Implicit Types (h : Handler) (p : prog A) (g : A -> prog B).

Lemma trace_bind h p g :
  trace h (p ≫= g)
  = trace h p ++ match outcome h p with
                 | Returned a => trace h (g a)
                 | _ => []
                 end.
Proof.
  induction p as [r|e| |c k IH]; try reflexivity.
  change (trace h (Vis c k ≫= g)) with (c :: trace h (k (h c) ≫= g)).
  rewrite IH. reflexivity.
Qed.

Lemma outcome_bind h p g :
  outcome h (p ≫= g)
  = match outcome h p with
    | Returned a => outcome h (g a)
    | Threw e => Threw e
    | Suspended => Suspended
    end.
Proof.
  induction p as [r|e| |c k IH]; try reflexivity.
  change (outcome h (Vis c k ≫= g)) with (outcome h (k (h c) ≫= g)).
  apply IH.
Qed.

End Programs.

(** The [finally] block runs exactly when the [try] block completes. *)
Lemma trace_try_finally {A : Type} (h : Handler) (p : prog A) (fin : prog unit) :
  trace h (try_finally p fin)
  = trace h p ++ (if completes (outcome h p) then trace h fin else []).
Proof.
  induction p as [r|e| |c k IH]; simpl.
  - change (bind fin (fun _ => Ret r)) with (fin ≫= (fun _ => Ret r)).
    rewrite trace_bind. destruct (outcome h fin); simpl; apply app_nil_r.
  - change (bind fin (fun _ => Throw e)) with (fin ≫= (fun _ => @Throw A e)).
    rewrite trace_bind. destruct (outcome h fin); simpl; apply app_nil_r.
  - reflexivity.
  - rewrite IH. reflexivity.
Qed.

Lemma disposals_app (tr1 tr2 : list Cmd) :
  disposals (tr1 ++ tr2) = disposals tr1 + disposals tr2.
Proof. unfold disposals. rewrite filter_app, length_app. reflexivity. Qed.

(** ** The navigation driver *)

(** A [finally { watcher.dispose() }] makes [dispose] the last call of a
    [try] block that completes, and changes nothing of how it ends. *)
Lemma outcome_finally_dispose {A : Type} (h : Handler) (p : prog A) :
  outcome h (try_finally p (call dispose)) = outcome h p.
Proof. induction p as [r|e| |c k IH]; simpl; auto. Qed.

Lemma trace_finally_dispose {A : Type} (h : Handler) (p : prog A) :
  completes (outcome h p) = true ->
  trace h (try_finally p (call dispose)) = trace h p ++ [dispose].
Proof. intros Hdone. rewrite trace_try_finally, Hdone. reflexivity. Qed.

Lemma disposals_finally_dispose {A : Type} (h : Handler) (p : prog A) :
  completes (outcome h p) = true ->
  disposals (trace h (try_finally p (call dispose))) = disposals (trace h p) + 1
  ∧ last (trace h (try_finally p (call dispose))) = Some dispose.
Proof.
  intros Hdone. rewrite (trace_finally_dispose h p Hdone), disposals_app.
  split; [reflexivity|]. apply last_snoc.
Qed.

(** *** The inner [navigate] *)

Section Navigate.
Variables (url : string) (ensure : bool).

Lemma navigate_without_error response :
  without_error response ->
  navigate url (Fulfilled response) ensure
  = Ret (truthy (resp_loaderId response), None).
Proof.
  unfold navigate. cbn -[truthy]. intros [Hfalsy| ->]; [|reflexivity].
  case_bool_decide; [reflexivity|].
  destruct (resp_errorText response) as [errorText|]; [|reflexivity].
  rewrite Hfalsy. reflexivity.
Qed.

Lemma navigate_errorText response errorText :
  resp_errorText response = Some errorText ->
  errorText ≠ "" ->
  errorText ≠ "net::ERR_HTTP_RESPONSE_CODE_FAILURE" ->
  navigate url (Fulfilled response) ensure
  = Ret (truthy (resp_loaderId response),
         Some (new_Error (errorText +:+ " at " +:+ url))).
Proof.
  unfold navigate. cbn -[truthy]. intros -> Hne Hhttp.
  rewrite bool_decide_eq_false_2 by congruence.
  apply truthy_Some in Hne. rewrite Hne. reflexivity.
Qed.

Lemma navigate_rejected t :
  navigate url (Rejected t) ensure
  = match t with
    | ErrorLike e => Ret (ensure, Some e)
    | NotErrorLike _ => Throw t
    end.
Proof. destruct t; reflexivity. Qed.
End Navigate.

Ltac goto_cases options :=
  unfold goto;
  destruct options as [[referer|] [policy|] [ms|] waitUntil];
  cbn -[navigate].

(** What follows the second race: nothing the watcher is raced on. *)
Ltac finish_run h :=
  cbn -[truthy];
  repeat match goal with
    | |- context [h (race ?ps)] => destruct (h (race ps)) as [[?|]|]; cbn -[truthy]
    | |- context [h navigationResponse] =>
        destruct (h navigationResponse) as [?|?|]; cbn -[truthy]
    end.

(** C2 (amended): when the [Page.navigate] command of [goto] completes
    without error, [goto] then races the watcher's timeout-or-termination
    promise against one navigation promise only: the new-document one when
    the response carried a loader id, the same-document one, and not the
    new-document one, when it carried none. *)
Theorem goto_second_race (h : Handler) (f : Frame) (url : string)
    (options : GotoOptions) (response : NavigateResponse) :
  h (race_navigate [timeoutOrTerminationPromise]) = SendFulfilled response ->
  without_error response ->
  watcher_races (trace h (goto f url options))
  = [[timeoutOrTerminationPromise;
      if truthy (resp_loaderId response)
      then newDocumentNavigationPromise
      else sameDocumentNavigationPromise]].
Proof.
  intros Hrace Hok.
  goto_cases options; rewrite Hrace, (navigate_without_error _ _ _ Hok);
    destruct (truthy (resp_loaderId response)); finish_run h; reflexivity.
Qed.

Lemma goto_second_race_witness :
  watcher_races (trace http_failure_scenario
                   (goto frame0 "https://example.com/missing" no_goto_options))
  = [[timeoutOrTerminationPromise; newDocumentNavigationPromise]].
Proof.
  apply (goto_second_race http_failure_scenario frame0 "https://example.com/missing"
           no_goto_options
           (mkNavigateResponse "F1" (Some "L1")
              (Some "net::ERR_HTTP_RESPONSE_CODE_FAILURE"))).
  - reflexivity.
  - right. reflexivity.
Defined.

(** C2, as the claim states it, fails: after a response without a loader
    id [goto] does not wait on the new-document promise at all. *)
Lemma goto_without_loader_ignores_new_document :
  ¬ (∃ ps, ps ∈ watcher_races
                  (trace no_loader_scenario
                     (goto frame0 "https://example.com/" no_goto_options))
           ∧ newDocumentNavigationPromise ∈ ps).
Proof.
  intros (ps & Hps & Hnew). vm_compute in Hps.
  apply list_elem_of_singleton in Hps as ->.
  apply list_elem_of_In in Hnew. simpl in Hnew.
  destruct Hnew as [Hnew|[Hnew|[]]]; discriminate Hnew.
Qed.

(** Under the same collaborators the call then never completes, although
    the new-document promise resolves. *)
Example goto_without_loader_stays_suspended :
  outcome no_loader_scenario (goto frame0 "https://example.com/" no_goto_options)
  = Suspended.
Proof. reflexivity. Qed.

(** C3: when the response of [Page.navigate] reaches [goto] with the error
    text [net::ERR_HTTP_RESPONSE_CODE_FAILURE], [goto] runs exactly as it
    does on the same response without error text, and goes on to wait on
    the watcher; with any other non-empty error text it throws an [Error]
    whose message is that text, [" at "] and the target URL. *)
Theorem goto_errorText (h : Handler) (f : Frame) (url : string)
    (options : GotoOptions) (response : NavigateResponse) :
  h (race_navigate [timeoutOrTerminationPromise]) = SendFulfilled response ->
  (resp_errorText response = Some "net::ERR_HTTP_RESPONSE_CODE_FAILURE" ->
     run h (goto f url options)
     = run (with_navigate (SendFulfilled (clear_errorText response)) h)
         (goto f url options)
     ∧ ∃ ps, watcher_races (trace h (goto f url options)) = [ps])
  ∧ (∀ errorText,
       resp_errorText response = Some errorText ->
       errorText ≠ "" ->
       errorText ≠ "net::ERR_HTTP_RESPONSE_CODE_FAILURE" ->
       outcome h (goto f url options)
       = Threw (ErrorLike (new_Error (errorText +:+ " at " +:+ url)))).
Proof.
  intros Hrace. split.
  - intros Hhttp. split.
    + unfold run.
      goto_cases options;
        rewrite Hrace, (navigate_without_error url false _ (or_intror Hhttp)),
          (navigate_without_error url false (clear_errorText response)
             (or_introl eq_refl));
        unfold clear_errorText; cbn [resp_loaderId];
        destruct (truthy (resp_loaderId response)); finish_run h; reflexivity.
    + exists [timeoutOrTerminationPromise;
              if truthy (resp_loaderId response)
              then newDocumentNavigationPromise
              else sameDocumentNavigationPromise].
      goto_cases options;
        rewrite Hrace, (navigate_without_error url false _ (or_intror Hhttp));
        destruct (truthy (resp_loaderId response)); finish_run h; reflexivity.
  - intros errorText Htext Hne Hhttp.
    goto_cases options;
      rewrite Hrace, (navigate_errorText _ _ _ _ Htext Hne Hhttp); reflexivity.
Qed.

Lemma goto_errorText_witness :
  run http_failure_scenario (goto frame0 "https://example.com/missing" no_goto_options)
  = run (with_navigate
           (SendFulfilled (clear_errorText
              (mkNavigateResponse "F1" (Some "L1")
                 (Some "net::ERR_HTTP_RESPONSE_CODE_FAILURE"))))
           http_failure_scenario)
      (goto frame0 "https://example.com/missing" no_goto_options)
  ∧ outcome dns_failure_scenario
      (goto frame0 "https://nowhere.example/" no_goto_options)
    = Threw (ErrorLike
               (new_Error "net::ERR_NAME_NOT_RESOLVED at https://nowhere.example/")).
Proof.
  split.
  - destruct (goto_errorText http_failure_scenario frame0 "https://example.com/missing"
                no_goto_options
                (mkNavigateResponse "F1" (Some "L1")
                   (Some "net::ERR_HTTP_RESPONSE_CODE_FAILURE")) eq_refl)
      as [Hhttp _].
    apply (proj1 (Hhttp eq_refl)).
  - destruct (goto_errorText dns_failure_scenario frame0 "https://nowhere.example/"
                no_goto_options
                (mkNavigateResponse "F1" (Some "L1") (Some "net::ERR_NAME_NOT_RESOLVED"))
                eq_refl)
      as [_ Hother].
    apply (Hother "net::ERR_NAME_NOT_RESOLVED"); [reflexivity|discriminate|discriminate].
Defined.

(** A 404 is a response, not an exception. *)
Example http_failure_returns_response :
  outcome http_failure_scenario
    (goto frame0 "https://example.com/missing" no_goto_options)
  = Returned (Some (mkHTTPResponse 7)).
Proof. reflexivity. Qed.

(** C8, at the failing path: when [Page.navigate] rejects with a value that
    is not error-like, [navigate] rethrows it, the first [await] of [goto]
    throws outside the [try ... finally], and [goto] throws that value with
    its watcher constructed and never disposed. *)
Theorem goto_rethrow_skips_dispose (h : Handler) (f : Frame) (url : string)
    (options : GotoOptions) (t : Thrown) :
  h (race_navigate [timeoutOrTerminationPromise]) = SendRejected t ->
  isErrorLike t = false ->
  outcome h (goto f url options) = Threw t
  ∧ disposals (trace h (goto f url options)) = 0
  ∧ ∃ waitUntil timeout,
      new_LifecycleWatcher (_id f) waitUntil timeout ∈ trace h (goto f url options).
Proof.
  intros Hrace Hlike. destruct t as [e|v]; [discriminate Hlike|].
  goto_cases options; rewrite Hrace, navigate_rejected;
    (split; [reflexivity|split; [reflexivity|]]);
    do 2 eexists; cbn; rewrite !elem_of_cons; eauto 6.
Qed.

Lemma goto_rethrow_skips_dispose_witness :
  outcome rethrow_scenario (goto frame0 "https://example.com/" no_goto_options)
  = Threw (NotErrorLike "boom")
  ∧ disposals (trace rethrow_scenario
                 (goto frame0 "https://example.com/" no_goto_options)) = 0
  ∧ ∃ waitUntil timeout,
      new_LifecycleWatcher (_id frame0) waitUntil timeout
      ∈ trace rethrow_scenario (goto frame0 "https://example.com/" no_goto_options).
Proof.
  apply (goto_rethrow_skips_dispose rethrow_scenario frame0 "https://example.com/"
           no_goto_options (NotErrorLike "boom")).
  - reflexivity.
  - reflexivity.
Defined.

Lemma navigate_fulfilled_returns (url : string) (ensure : bool)
    (response : NavigateResponse) :
  ∃ error, navigate url (Fulfilled response) ensure
           = Ret (truthy (resp_loaderId response), error).
Proof.
  unfold navigate. cbn -[truthy]. case_bool_decide; [eauto|].
  destruct (resp_errorText response) as [errorText|]; [|eauto].
  destruct (truthy (Some errorText)); eauto.
Qed.

(** [waitForNavigation] disposes its watcher on every path on which it
    completes. *)
Lemma waitForNavigation_disposes (h : Handler) (f : Frame)
    (options : WaitForNavigationOptions) :
  completes (outcome h (waitForNavigation f options)) = true ->
  disposals (trace h (waitForNavigation f options)) = 1
  ∧ last (trace h (waitForNavigation f options)) = Some dispose.
Proof.
  unfold waitForNavigation.
  destruct options as [[ms|] waitUntil]; finish_run h; intros Hdone;
    solve [discriminate Hdone | split; reflexivity].
Qed.

(** [goto] disposes its watcher on every path on which it completes, but
    for the one on which [navigate] rethrows. *)
Lemma goto_disposes (h : Handler) (f : Frame) (url : string) (options : GotoOptions) :
  completes (outcome h (goto f url options)) = true ->
  (∀ t, h (race_navigate [timeoutOrTerminationPromise]) = SendRejected t ->
        isErrorLike t = true) ->
  disposals (trace h (goto f url options)) = 1
  ∧ last (trace h (goto f url options)) = Some dispose.
Proof.
  intros Hdone Hlike. revert Hdone.
  destruct (h (race_navigate [timeoutOrTerminationPromise]))
    as [response|[e|v]|[e|]|] eqn:Hrace.
  - destruct (navigate_fulfilled_returns url false response) as [[e|] Hnav];
      goto_cases options; rewrite Hrace, Hnav;
      destruct (truthy (resp_loaderId response)); finish_run h; intros Hdone;
      solve [discriminate Hdone | split; reflexivity].
  - goto_cases options; rewrite Hrace, navigate_rejected; finish_run h;
      intros Hdone; solve [discriminate Hdone | split; reflexivity].
  - discriminate (Hlike _ eq_refl).
  - goto_cases options; rewrite Hrace; finish_run h; intros Hdone;
      solve [discriminate Hdone | split; reflexivity].
  - goto_cases options; rewrite Hrace; finish_run h; intros Hdone;
      solve [discriminate Hdone | split; reflexivity].
  - goto_cases options; rewrite Hrace; finish_run h; intros Hdone;
      solve [discriminate Hdone | split; reflexivity].
Qed.

(** * Further properties *)

Set Warnings "-clear-no-such-hyp".

(** ** Bookkeeping *)

Lemma frame_eq (f g : Frame) :
  hash_url f = hash_url g -> hash_detached f = hash_detached g ->
  hash_client f = hash_client g -> worlds f = worlds g ->
  _frameManager f = _frameManager g -> _id f = _id g ->
  _loaderId f = _loaderId g -> _name f = _name g ->
  _hasStartedLoading f = _hasStartedLoading g ->
  _lifecycleEvents f = _lifecycleEvents g -> _parentId f = _parentId g ->
  f = g.
Proof. destruct f, g; simpl; intros; subst; reflexivity. Qed.

Ltac case_op op :=
  destruct op as [c|p|u|loaderId eventName| | |]; simpl;
  try match goal with
    | |- context [String.eqb ?n "init"] => destruct (String.eqb n "init") eqn:?
    end; simpl.

(** X1: a lifecycle event delivered twice in a row leaves the frame as
    after the first delivery, whatever its name. *)
Theorem onLifecycleEvent_idempotent (loaderId eventName : string) (f : Frame) :
  _onLifecycleEvent loaderId eventName (_onLifecycleEvent loaderId eventName f)
  = _onLifecycleEvent loaderId eventName f.
Proof.
  unfold _onLifecycleEvent.
  destruct (String.eqb eventName "init"); apply frame_eq; simpl; try reflexivity;
    set_solver.
Qed.

(** X2: [_onLoadingStopped] records both ["DOMContentLoaded"] and ["load"],
    keeps every event recorded before, and doing it twice is doing it
    once. *)
Theorem onLoadingStopped_spec (f : Frame) :
  "DOMContentLoaded" ∈ _lifecycleEvents (_onLoadingStopped f)
  ∧ "load" ∈ _lifecycleEvents (_onLoadingStopped f)
  ∧ _lifecycleEvents f ⊆ _lifecycleEvents (_onLoadingStopped f)
  ∧ _onLoadingStopped (_onLoadingStopped f) = _onLoadingStopped f.
Proof.
  unfold _onLoadingStopped. simpl. repeat split; try set_solver.
  apply frame_eq; simpl; try reflexivity. set_solver.
Qed.

Lemma apply_op_without_init op (f : Frame) :
  is_init_event op = false ->
  _loaderId (apply_op op f) = _loaderId f
  ∧ _lifecycleEvents f ⊆ _lifecycleEvents (apply_op op f).
Proof.
  destruct op as [c|p|u|loaderId eventName| | |]; simpl; intros Hop;
    try (split; [reflexivity|set_solver]).
  unfold _onLifecycleEvent. rewrite Hop. simpl. split; [reflexivity|set_solver].
Qed.

(** X3: as long as no ["init"] event arrives, no method of the frame
    changes its loader id or forgets a lifecycle event it has recorded. *)
Theorem events_kept_until_init (ops : list FrameOp) (f : Frame) :
  Forall (fun op => is_init_event op = false) ops ->
  _loaderId (apply_ops ops f) = _loaderId f
  ∧ _lifecycleEvents f ⊆ _lifecycleEvents (apply_ops ops f).
Proof.
  intros Hops. revert f.
  induction Hops as [|op ops Hop _ IH]; intros f; [split; [reflexivity|set_solver]|].
  rewrite apply_ops_cons.
  destruct (IH (apply_op op f)) as [Hloader Hevents].
  destruct (apply_op_without_init op f Hop) as [Hloader1 Hevents1].
  split; [congruence|set_solver].
Qed.

Lemma events_kept_until_init_witness :
  _loaderId (apply_ops [OpLifecycleEvent "L7" "load"; OpLoadingStopped; OpDetach]
               (_onLifecycleEvent "L1" "init" frame0))
  = _loaderId (_onLifecycleEvent "L1" "init" frame0)
  ∧ _lifecycleEvents (_onLifecycleEvent "L1" "init" frame0)
    ⊆ _lifecycleEvents
        (apply_ops [OpLifecycleEvent "L7" "load"; OpLoadingStopped; OpDetach]
           (_onLifecycleEvent "L1" "init" frame0)).
Proof.
  apply (events_kept_until_init
           [OpLifecycleEvent "L7" "load"; OpLoadingStopped; OpDetach]
           (_onLifecycleEvent "L1" "init" frame0)).
  repeat constructor.
Defined.

(** X4: no method of the frame changes its identifier, its parent's
    identifier or its frame manager. *)
Theorem identity_is_stable (ops : list FrameOp) (f : Frame) :
  _id (apply_ops ops f) = _id f
  ∧ _parentId (apply_ops ops f) = _parentId f
  ∧ _frameManager (apply_ops ops f) = _frameManager f.
Proof.
  revert f. induction ops as [|op ops IH]; intros f; [repeat split|].
  rewrite apply_ops_cons.
  destruct (IH (apply_op op f)) as (-> & -> & ->).
  case_op op; repeat split.
Qed.

Lemma apply_op_keeps_started op (f : Frame) :
  _hasStartedLoading f = true -> _hasStartedLoading (apply_op op f) = true.
Proof. case_op op; auto. Qed.

Lemma apply_op_started_only_by_loadingStarted op (f : Frame) :
  is_loadingStarted op = false ->
  _hasStartedLoading (apply_op op f) = _hasStartedLoading f.
Proof. case_op op; auto; discriminate. Qed.

(** X5: once [_onLoadingStarted] has run the has-started-loading flag is
    true after any further methods, and no other method ever sets it. *)
Theorem started_loading_is_permanent (ops : list FrameOp) (f : Frame) :
  _hasStartedLoading (apply_ops ops (_onLoadingStarted f)) = true
  ∧ (Forall (fun op => is_loadingStarted op = false) ops ->
     _hasStartedLoading (apply_ops ops f) = _hasStartedLoading f).
Proof.
  split.
  - generalize (_onLoadingStarted f) (eq_refl : _hasStartedLoading (_onLoadingStarted f) = true).
    induction ops as [|op ops IH]; intros g Hg; [exact Hg|].
    rewrite apply_ops_cons. apply IH, apply_op_keeps_started, Hg.
  - intros Hops. revert f.
    induction Hops as [|op ops Hop _ IH]; intros f; [reflexivity|].
    rewrite apply_ops_cons, IH. apply apply_op_started_only_by_loadingStarted, Hop.
Qed.

Lemma started_loading_is_permanent_witness :
  _hasStartedLoading
    (apply_ops [OpLifecycleEvent "L1" "init"; OpLoadingStopped; OpDetach] frame0)
  = _hasStartedLoading frame0.
Proof.
  apply (started_loading_is_permanent
           [OpLifecycleEvent "L1" "init"; OpLoadingStopped; OpDetach] frame0).
  repeat constructor.
Defined.

Lemma apply_op_keeps_url op (f : Frame) :
  writes_url op = false -> url (apply_op op f) = url f.
Proof. case_op op; auto; discriminate. Qed.

(** X6: the URL of a frame is the one of the last navigation notification:
    after a same-document navigation to [u] it is [u], after a navigation
    it is the payload's URL and fragment, and no other method changes
    it. *)
Theorem url_follows_last_navigation (ops : list FrameOp) (f : Frame) :
  Forall (fun op => writes_url op = false) ops ->
  (∀ u, url (apply_ops ops (_navigatedWithinDocument u f)) = u)
  ∧ (∀ p, url (apply_ops ops (_navigated p f))
          = payload_url p +:+ default "" (payload_urlFragment p))
  ∧ url (apply_ops ops f) = url f.
Proof.
  intros Hops.
  assert (Hkeep : ∀ g, url (apply_ops ops g) = url g).
  { induction Hops as [|op ops Hop _ IH]; intros g; [reflexivity|].
    rewrite apply_ops_cons, IH. apply apply_op_keeps_url, Hop. }
  split; [|split].
  - intros u. rewrite Hkeep. reflexivity.
  - intros p. rewrite Hkeep. unfold _navigated, url. simpl.
    rewrite js_or_empty. reflexivity.
  - apply Hkeep.
Qed.

Lemma url_follows_last_navigation_witness :
  url (apply_ops [OpLifecycleEvent "L1" "init"; OpLoadingStopped]
         (_navigatedWithinDocument "https://example.com/#top" frame0))
  = "https://example.com/#top".
Proof.
  apply (url_follows_last_navigation [OpLifecycleEvent "L1" "init"; OpLoadingStopped]
           frame0).
  repeat constructor.
Defined.

Lemma apply_op_keeps_client op (f : Frame) :
  is_updateClient op = false ->
  hash_client (apply_op op f) = hash_client f
  ∧ _frameManager (apply_op op f) = _frameManager f.
Proof. case_op op; auto; discriminate. Qed.

(** X7: a frame is out-of-process exactly when the session it was last
    bound to, by the constructor or by [updateClient], is not the frame
    manager's own; no other method changes the answer. *)
Theorem isOOPFrame_spec (ops : list FrameOp) (f : Frame) (c : CDPSession) :
  Forall (fun op => is_updateClient op = false) ops ->
  isOOPFrame (apply_ops ops (updateClient c f))
  = negb (bool_decide (c = client (_frameManager f)))
  ∧ ∀ frameManager frameId parentFrameId,
      isOOPFrame (apply_ops ops (new_Frame frameManager frameId parentFrameId c))
      = negb (bool_decide (c = client frameManager)).
Proof.
  intros Hops.
  assert (Hkeep : ∀ g, isOOPFrame (apply_ops ops g) = isOOPFrame g).
  { induction Hops as [|op ops Hop _ IH]; intros g; [reflexivity|].
    rewrite apply_ops_cons, IH. unfold isOOPFrame.
    destruct (apply_op_keeps_client op g Hop) as [-> ->]. reflexivity. }
  assert (Heqb : ∀ a b : nat, Nat.eqb a b = bool_decide (a = b)).
  { intros a b. destruct (Nat.eqb_spec a b).
    - rewrite bool_decide_eq_true_2; auto.
    - rewrite bool_decide_eq_false_2; auto. }
  split; [|intros frameManager frameId parentFrameId];
    rewrite Hkeep; unfold isOOPFrame; simpl; rewrite Heqb; reflexivity.
Qed.

Lemma isOOPFrame_spec_witness :
  isOOPFrame (apply_ops [OpLoadingStarted; OpDetach] (updateClient 4 frame0))
  = negb (bool_decide (4 = client (_frameManager frame0))).
Proof.
  apply (isOOPFrame_spec [OpLoadingStarted; OpDetach] frame0 4).
  repeat constructor.
Defined.

(** ** The navigation driver *)

Ltac settle_cases h :=
  cbn -[truthy];
  repeat match goal with
    | |- context [h (race ?ps)] =>
        destruct (h (race ps)) as [[?|]|] eqn:?; cbn -[truthy]
    | |- context [h navigationResponse] =>
        destruct (h navigationResponse) as [?|?|] eqn:?; cbn -[truthy]
    end.

(** X8: how [waitForNavigation] ends is decided by its single race of the
    three watcher promises: an error there is thrown, no error there gives
    what [watcher.navigationResponse()] gives, and while the race is
    pending so is the call. *)
Theorem waitForNavigation_outcome (h : Handler) (f : Frame)
    (options : WaitForNavigationOptions) :
  outcome h (waitForNavigation f options)
  = match h (race [timeoutOrTerminationPromise; sameDocumentNavigationPromise;
                   newDocumentNavigationPromise]) with
    | Settles (Some e) => Threw (ErrorLike e)
    | Settles None => response_outcome (h navigationResponse)
    | NeverSettles => Suspended
    end.
Proof.
  unfold waitForNavigation.
  destruct options as [[ms|] waitUntil]; settle_cases h; reflexivity.
Qed.

(** X9: [waitForNavigation] never sends a command; it constructs one
    watcher for its own frame, and races the three watcher promises once,
    all of them. *)
Theorem waitForNavigation_only_watches (h : Handler) (f : Frame)
    (options : WaitForNavigationOptions) :
  Forall (fun c => is_command c = false) (trace h (waitForNavigation f options))
  ∧ (∃ timeout,
       filter (fun c => is_new_LifecycleWatcher c = true)
         (trace h (waitForNavigation f options))
       = [new_LifecycleWatcher (_id f)
            (default (EventList [load]) (wait_waitUntil options)) timeout])
  ∧ watcher_races (trace h (waitForNavigation f options))
    = [[timeoutOrTerminationPromise; sameDocumentNavigationPromise;
        newDocumentNavigationPromise]].
Proof.
  unfold waitForNavigation.
  destruct options as [[ms|] waitUntil]; settle_cases h;
    (split; [repeat constructor|split; [eexists; reflexivity|reflexivity]]).
Qed.





(** X12: when the first race of [goto] yields an error, because the
    watcher's timeout-or-termination promise settles first with one or
    because the command rejects with an error-like value, [goto] throws
    that very error: it waits on no navigation promise, asks for no
    response, and its last call is [dispose]. *)
Theorem goto_first_race_error (h : Handler) (f : Frame) (url : string)
    (options : GotoOptions) (e : JsError) :
  h (race_navigate [timeoutOrTerminationPromise]) = WatcherFirst (Some e)
  ∨ h (race_navigate [timeoutOrTerminationPromise]) = SendRejected (ErrorLike e) ->
  outcome h (goto f url options) = Threw (ErrorLike e)
  ∧ watcher_races (trace h (goto f url options)) = []
  ∧ Forall (fun c => is_navigationResponse c = false) (trace h (goto f url options))
  ∧ last (trace h (goto f url options)) = Some dispose.
Proof.
  intros [Hrace|Hrace];
    goto_cases options; rewrite Hrace, ?navigate_rejected; cbn;
    (split; [reflexivity|split; [reflexivity|split; [repeat constructor|reflexivity]]]).
Qed.

Lemma goto_first_race_error_witness :
  outcome detached_scenario (goto frame0 "https://example.com/" no_goto_options)
  = Threw (ErrorLike (mkJsError ClassError "Navigating frame was detached"))
  ∧ watcher_races (trace detached_scenario
                     (goto frame0 "https://example.com/" no_goto_options)) = []
  ∧ Forall (fun c => is_navigationResponse c = false)
      (trace detached_scenario (goto frame0 "https://example.com/" no_goto_options))
  ∧ last (trace detached_scenario (goto frame0 "https://example.com/" no_goto_options))
    = Some dispose.
Proof.
  apply (goto_first_race_error detached_scenario frame0 "https://example.com/"
           no_goto_options (mkJsError ClassError "Navigating frame was detached")).
  left. reflexivity.
Defined.

(** X13: after a response without error, how [goto] ends is decided by its
    second race: an error there is thrown, no error there gives what
    [watcher.navigationResponse()] gives (a response or null), and while
    the race is pending so is the call. *)
Theorem goto_outcome_after_response (h : Handler) (f : Frame) (url : string)
    (options : GotoOptions) (response : NavigateResponse) :
  h (race_navigate [timeoutOrTerminationPromise]) = SendFulfilled response ->
  without_error response ->
  outcome h (goto f url options)
  = match h (race [timeoutOrTerminationPromise; navigation_promise response]) with
    | Settles (Some e) => Threw (ErrorLike e)
    | Settles None => response_outcome (h navigationResponse)
    | NeverSettles => Suspended
    end.
Proof.
  intros Hrace Hok. unfold navigation_promise.
  goto_cases options; rewrite Hrace, (navigate_without_error _ _ _ Hok);
    destruct (truthy (resp_loaderId response)); settle_cases h; reflexivity.
Qed.

Lemma goto_outcome_after_response_witness :
  outcome loaded_scenario (goto frame0 "https://example.com/" no_goto_options)
  = match loaded_scenario
            (race [timeoutOrTerminationPromise;
                   navigation_promise (mkNavigateResponse "F1" (Some "L1") None)]) with
    | Settles (Some e) => Threw (ErrorLike e)
    | Settles None => response_outcome (loaded_scenario navigationResponse)
    | NeverSettles => Suspended
    end.
Proof.
  apply (goto_outcome_after_response loaded_scenario frame0 "https://example.com/"
           no_goto_options (mkNavigateResponse "F1" (Some "L1") None)).
  - reflexivity.
  - left. reflexivity.
Defined.

(** X14: [goto] passes the options it is given through untouched, an empty
    referer and a zero timeout included, and then asks for no default;
    called without options it takes the referrer and the referrer policy
    from the extra HTTP headers ["referer"] and ["referer-policy"], the
    timeout from the navigation timeout setting, and waits for ["load"]. *)
Theorem goto_option_defaults (h : Handler) (f : Frame) (url : string) :
  (∀ referer referrerPolicy ms waitUntil,
     ∃ rest,
       trace h (goto f url
                  (mkGotoOptions (Some referer) (Some referrerPolicy) (Some ms) waitUntil))
       = new_LifecycleWatcher (_id f) (default (EventList [load]) waitUntil) ms
         :: send_Page_navigate (hash_client f)
              (mkNavigateParams url (Some referer) (_id f) (Some referrerPolicy))
         :: race_navigate [timeoutOrTerminationPromise] :: rest
       ∧ Forall (fun c => is_query c = false) rest)
  ∧ ∃ rest,
      trace h (goto f url (mkGotoOptions None None None None))
      = extraHTTPHeaders :: extraHTTPHeaders :: navigationTimeout
        :: new_LifecycleWatcher (_id f) (EventList [load]) (h navigationTimeout)
        :: send_Page_navigate (hash_client f)
             (mkNavigateParams url (h extraHTTPHeaders !! "referer") (_id f)
                (h extraHTTPHeaders !! "referer-policy"))
        :: race_navigate [timeoutOrTerminationPromise] :: rest
      ∧ Forall (fun c => is_query c = false) rest.
Proof.
  split; [intros referer referrerPolicy ms waitUntil|];
    unfold goto; cbn -[navigate];
    (destruct (h (race_navigate [timeoutOrTerminationPromise]))
       as [response|[e|v]|[e|]|] eqn:Hrace;
     [ destruct (navigate_fulfilled_returns url false response) as [[e|] ->];
       destruct (truthy (resp_loaderId response))
     | rewrite navigate_rejected | rewrite navigate_rejected | | | ]);
    settle_cases h; eexists; (split; [reflexivity|repeat constructor]).
Qed.

(** X15: whatever its options and its collaborators, [goto] first reads
    defaults, then constructs one watcher for its frame, then sends one
    [Page.navigate] command, for its frame, through the frame's session,
    then awaits the first race; nothing before or after starts another
    navigation. *)
Theorem goto_watcher_before_command (h : Handler) (f : Frame) (url : string)
    (options : GotoOptions) :
  ∃ queries waitUntil timeout referrer referrerPolicy rest,
    trace h (goto f url options)
    = queries
      ++ [new_LifecycleWatcher (_id f) waitUntil timeout;
          send_Page_navigate (hash_client f)
            (mkNavigateParams url referrer (_id f) referrerPolicy);
          race_navigate [timeoutOrTerminationPromise]]
      ++ rest
    ∧ Forall (fun c => is_query c = true) queries
    ∧ Forall (fun c => starts_navigation c = false) rest.
Proof.
  destruct (h (race_navigate [timeoutOrTerminationPromise]))
    as [response|[e|v]|[e|]|] eqn:Hrace;
    [ destruct (navigate_fulfilled_returns url false response) as [[e|] Hnav];
      destruct (truthy (resp_loaderId response)) eqn:Hloader
    | pose proof (navigate_rejected url false (ErrorLike e)) as Hnav
    | pose proof (navigate_rejected url false (NotErrorLike v)) as Hnav
    | | | ];
    goto_cases options; rewrite Hrace, ?Hnav, ?Hloader; settle_cases h;
    match goal with
    | |- context [extraHTTPHeaders :: extraHTTPHeaders :: navigationTimeout :: _] =>
        exists [extraHTTPHeaders; extraHTTPHeaders; navigationTimeout]
    | |- context [extraHTTPHeaders :: extraHTTPHeaders :: _] =>
        exists [extraHTTPHeaders; extraHTTPHeaders]
    | |- context [extraHTTPHeaders :: navigationTimeout :: _] =>
        exists [extraHTTPHeaders; navigationTimeout]
    | |- context [extraHTTPHeaders :: _] => exists [extraHTTPHeaders]
    | |- context [navigationTimeout :: _] => exists [navigationTimeout]
    | |- _ => exists []
    end;
    do 5 eexists; (split; [reflexivity|split; repeat constructor]).
Qed.

(** ** Script and style injection *)

(** X16: [remove_newlines] drops every line feed and nothing else: what is
    left is the other characters in their order, so no line feed remains,
    and removing again changes nothing. *)
Theorem remove_newlines_spec (s : string) :
  String.list_ascii_of_string (remove_newlines s)
  = List.filter (fun c => negb (Ascii.eqb c "010"%char)) (String.list_ascii_of_string s)
  ∧ ¬ In "010"%char (String.list_ascii_of_string (remove_newlines s))
  ∧ remove_newlines (remove_newlines s) = remove_newlines s.
Proof.
  assert (Hfilter : ∀ s, String.list_ascii_of_string (remove_newlines s)
                         = List.filter (fun c => negb (Ascii.eqb c "010"%char))
                             (String.list_ascii_of_string s)).
  { clear s. induction s as [|c s IH]; [reflexivity|].
    cbn [remove_newlines String.list_ascii_of_string List.filter].
    destruct (Ascii.eqb c "010"%char); cbn [negb String.list_ascii_of_string];
      rewrite IH; reflexivity. }
  split; [apply Hfilter|split].
  - rewrite Hfilter. intros Hin. apply filter_In in Hin as [_ Hin].
    rewrite Ascii.eqb_refl in Hin. discriminate Hin.
  - induction s as [|c s IH]; [reflexivity|].
    cbn [remove_newlines]. destruct (Ascii.eqb c "010"%char) eqn:Hc; [exact IH|].
    cbn [remove_newlines]. rewrite Hc, IH. reflexivity.
Qed.

(** X17: [addScriptTag] with only a path, where [fs] loads: the file is
    read as utf8 and the script evaluated in the puppeteer world carries
    the file's text followed by a [sourceURL] comment naming the path
    without its line feeds; when the file cannot be read the rejection is
    thrown and nothing is evaluated. *)
Theorem addScriptTag_from_file (h : Handler) (f : Frame)
    (o : FrameAddScriptTagOptions) (file : string) :
  script_path o = Some file -> file ≠ "" ->
  truthy (script_url o) = false -> truthy (script_content o) = false ->
  h import_fs = Fulfilled tt ->
  (∀ data,
     h (readFile file "utf8") = Fulfilled data ->
     take 3 (trace h (addScriptTag f o))
     = [import_fs; readFile file "utf8";
        evaluateHandle PUPPETEER_WORLD
          (inject_script
             (mkScriptTagArg o (js_default (script_type o) "text/javascript")
                (data +:+ "//# sourceURL=" +:+ remove_newlines file)))])
  ∧ (∀ e,
       h (readFile file "utf8") = Rejected e ->
       run h (addScriptTag f o) = ([import_fs; readFile file "utf8"], Threw e)).
Proof.
  destruct o as [u p c ty i]. simpl. intros -> Hfile Hu Hc Himport.
  destruct file as [|a file]; [destruct Hfile; reflexivity|].
  unfold addScriptTag, run. cbn -[truthy remove_newlines]. rewrite Hu.
  assert (Hcontent : truthy (Some (js_default c "")) = false)
    by (destruct c as [[|? ?]|]; [reflexivity|discriminate Hc|reflexivity]).
  rewrite Hcontent.
  assert (Hpath : truthy (Some (String a file)) = true) by reflexivity.
  rewrite !Hpath.
  assert (Hone : negb (to_number false + to_number true + to_number false =? 1)%Z = false)
    by reflexivity.
  rewrite Hone.
  cbn -[remove_newlines]. rewrite Himport. cbn -[remove_newlines].
  split; [intros data Hdata|intros e He].
  - rewrite Hdata. cbn -[remove_newlines].
    destruct (h (evaluateHandle _ _)) as [k|?|]; cbn; [|reflexivity|reflexivity].
    destruct (h (transferHandle MAIN_WORLD k)); reflexivity.
  - rewrite He. reflexivity.
Qed.

(** X18: [addStyleTag] with only a path, where [fs] loads: the file is
    read as utf8 and the options sent to the puppeteer world keep the url
    and the path and carry as content the file's text followed by a
    [sourceURL] comment naming the path without its line feeds; when the
    file cannot be read the rejection is thrown and nothing is
    evaluated. *)
Theorem addStyleTag_from_file (h : Handler) (f : Frame)
    (o : FrameAddStyleTagOptions) (file : string) :
  style_path o = Some file -> file ≠ "" ->
  truthy (style_url o) = false -> truthy (style_content o) = false ->
  h importFS = Fulfilled tt ->
  (∀ data,
     h (readFile file "utf8") = Fulfilled data ->
     take 3 (trace h (addStyleTag f o))
     = [importFS; readFile file "utf8";
        evaluateHandle PUPPETEER_WORLD
          (inject_style
             (mkStyleTagOptions (style_url o) (Some file)
                (Some (data +:+ "/*# sourceURL=" +:+ remove_newlines file +:+ "*/"))))])
  ∧ (∀ e,
       h (readFile file "utf8") = Rejected e ->
       run h (addStyleTag f o) = ([importFS; readFile file "utf8"], Threw e)).
Proof.
  destruct o as [u p c]. simpl. intros -> Hfile Hu Hc Himport.
  destruct file as [|a file]; [destruct Hfile; reflexivity|].
  unfold addStyleTag, run. cbn -[truthy remove_newlines]. rewrite Hu.
  assert (Hcontent : truthy (Some (js_default c "")) = false)
    by (destruct c as [[|? ?]|]; [reflexivity|discriminate Hc|reflexivity]).
  rewrite Hcontent.
  assert (Hpath : truthy (Some (String a file)) = true) by reflexivity.
  rewrite !Hpath.
  assert (Hone : negb (to_number false + to_number true + to_number false =? 1)%Z = false)
    by reflexivity.
  rewrite Hone.
  cbn -[remove_newlines]. rewrite Himport. cbn -[remove_newlines].
  split; [intros data Hdata|intros e He].
  - rewrite Hdata. cbn -[remove_newlines].
    destruct (h (evaluateHandle _ _)) as [k|?|]; cbn; [|reflexivity|reflexivity].
    destruct (h (transferHandle MAIN_WORLD k)); reflexivity.
  - rewrite He. reflexivity.
Qed.

Lemma addStyleTag_from_file_witness :
  take 3 (trace node_scenario
            (addStyleTag frame0 (mkStyleTagOptions None (Some "a.css") None)))
  = [importFS; readFile "a.css" "utf8";
     evaluateHandle PUPPETEER_WORLD
       (inject_style
          (mkStyleTagOptions None (Some "a.css")
             (Some ("body{}" +:+ "/*# sourceURL=" +:+ remove_newlines "a.css" +:+ "*/"))))].
Proof.
  assert (Hfile : "a.css" ≠ "") by discriminate.
  destruct (addStyleTag_from_file node_scenario frame0
              (mkStyleTagOptions None (Some "a.css") None) "a.css"
              eq_refl Hfile eq_refl eq_refl eq_refl)
    as [Hread _].
  apply (Hread "body{}"). reflexivity.
Defined.

Lemma addScriptTag_from_file_witness :
  take 3 (trace node_scenario
            (addScriptTag frame0 (mkScriptTagOptions None (Some "a.js") None None None)))
  = [import_fs; readFile "a.js" "utf8";
     evaluateHandle PUPPETEER_WORLD
       (inject_script
          (mkScriptTagArg (mkScriptTagOptions None (Some "a.js") None None None)
             "text/javascript"
             ("body{}" +:+ "//# sourceURL=" +:+ remove_newlines "a.js")))].
Proof.
  assert (Hfile : "a.js" ≠ "") by discriminate.
  destruct (addScriptTag_from_file node_scenario frame0
              (mkScriptTagOptions None (Some "a.js") None None None) "a.js"
              eq_refl Hfile eq_refl eq_refl eq_refl)
    as [Hread _].
  apply (Hread "body{}"). reflexivity.
Defined.

(** X19: with only a path given, when loading [fs] fails both injection
    methods stop there, having read no file and evaluated nothing: a
    [TypeError] becomes the error "Can only pass a file path in a Node-like
    environment.", any other rejection is thrown as it is. *)
Theorem injection_without_fs (h : Handler) (f : Frame) (file : string) (e : Thrown) :
  file ≠ "" ->
  (∀ type id,
     h import_fs = Rejected e ->
     run h (addScriptTag f (mkScriptTagOptions None (Some file) None type id))
     = ([import_fs],
        Threw (if instanceof_TypeError e
               then ErrorLike (new_Error node_only_message) else e)))
  ∧ (h importFS = Rejected e ->
     run h (addStyleTag f (mkStyleTagOptions None (Some file) None))
     = ([importFS],
        Threw (if instanceof_TypeError e
               then ErrorLike (new_Error node_only_message) else e))).
Proof.
  intros Hfile. destruct file as [|a file]; [destruct Hfile; reflexivity|].
  split; [intros type id Himport|intros Himport];
    unfold addScriptTag, addStyleTag, run; lazy -[instanceof_TypeError];
    rewrite Himport; destruct (instanceof_TypeError e); reflexivity.
Qed.

Lemma injection_without_fs_witness :
  run browser_scenario
    (addStyleTag frame0 (mkStyleTagOptions None (Some "a.css") None))
  = ([importFS], Threw (ErrorLike (new_Error node_only_message))).
Proof.
  assert (Hfile : "a.css" ≠ "") by discriminate.
  destruct (injection_without_fs browser_scenario frame0 "a.css"
              (ErrorLike (mkJsError ClassTypeError "Failed to resolve module")) Hfile)
    as [_ Hstyle].
  apply Hstyle. reflexivity.
Defined.

Ltac settle_worlds h :=
  repeat match goal with
    | |- context [h (evaluateHandle ?w ?c)] =>
        destruct (h (evaluateHandle w c)) as [?|?|]
    | |- context [h (transferHandle ?w ?k)] =>
        destruct (h (transferHandle w k)) as [?|?|]
    end.

(** X20: with valid options and no path, the injection methods read no
    file: they evaluate once in the puppeteer world, with the options as
    given, then transfer the handle they get to the main world and end as
    that transfer ends; when the evaluation rejects or stays pending,
    nothing is transferred. *)
Theorem injection_without_path (h : Handler) (f : Frame) :
  (∀ o,
     script_sources o = 1 -> truthy (script_path o) = false ->
     run h (addScriptTag f o)
     = match h (evaluateHandle PUPPETEER_WORLD
                  (inject_script
                     (mkScriptTagArg o (js_default (script_type o) "text/javascript")
                        (js_default (script_content o) "")))) with
       | Fulfilled k =>
           ([script_evaluation o; transferHandle MAIN_WORLD k],
            settled_outcome (h (transferHandle MAIN_WORLD k)))
       | Rejected e => ([script_evaluation o], Threw e)
       | Pending => ([script_evaluation o], Suspended)
       end)
  ∧ (∀ o,
       style_sources o = 1 -> truthy (style_path o) = false ->
       run h (addStyleTag f o)
       = match h (evaluateHandle PUPPETEER_WORLD (inject_style o)) with
         | Fulfilled k =>
             ([style_evaluation o; transferHandle MAIN_WORLD k],
              settled_outcome (h (transferHandle MAIN_WORLD k)))
         | Rejected e => ([style_evaluation o], Threw e)
         | Pending => ([style_evaluation o], Suspended)
         end).
Proof.
  split.
  - intros [u p c ty i]. unfold script_sources.
    case_source u; case_source p; case_source c; simpl; intros Hone Hpath;
      try discriminate Hone; try discriminate Hpath;
      unfold addScriptTag, run, script_evaluation; lazy; settle_worlds h; reflexivity.
  - intros [u p c]. unfold style_sources.
    case_source u; case_source p; case_source c; simpl; intros Hone Hpath;
      try discriminate Hone; try discriminate Hpath;
      unfold addStyleTag, run, style_evaluation; lazy; settle_worlds h; reflexivity.
Qed.

Lemma injection_without_path_witness :
  run node_scenario
    (addStyleTag frame0 (mkStyleTagOptions None None (Some "body { margin: 0 }")))
  = ([style_evaluation (mkStyleTagOptions None None (Some "body { margin: 0 }"));
      transferHandle MAIN_WORLD 5],
     Returned 105).
Proof.
  destruct (injection_without_path node_scenario frame0) as [_ Hstyle].
  apply (Hstyle (mkStyleTagOptions None None (Some "body { margin: 0 }")));
    reflexivity.
Defined.

(** ** Waiting for selectors *)

(** X21: [waitForSelector] resolves the selector to a query handler first;
    a handler that cannot wait makes it throw "Query handler does not
    support waiting" without waiting, and otherwise it waits once, on the
    updated selector, for its own frame, with the caller's options, and
    ends as that wait ends. *)
Theorem waitForSelector_spec (h : Handler) (f : Frame) (selector : string)
    (options : WaitForSelectorOptions) :
  let updatedSelector := fst (h (getQueryHandlerAndSelector selector)) in
  let queryHandler := snd (h (getQueryHandlerAndSelector selector)) in
  run h (waitForSelector f selector options)
  = if has_waitFor queryHandler
    then ([getQueryHandlerAndSelector selector;
           queryHandler_waitFor queryHandler (_id f) updatedSelector options],
          settled_outcome
            (h (queryHandler_waitFor queryHandler (_id f) updatedSelector options)))
    else ([getQueryHandlerAndSelector selector],
          Threw (ErrorLike (new_Error "Query handler does not support waiting"))).
Proof.
  unfold waitForSelector, run. cbn.
  destruct (h (getQueryHandlerAndSelector selector)) as [updated q]. cbn.
  destruct (has_waitFor q); cbn; [|reflexivity].
  destruct (h (queryHandler_waitFor q (_id f) updated options)); reflexivity.
Qed.

(** X22: the expression [waitForXPath] hands on never starts with ["//"]:
    the selector it resolves is ["xpath/"] followed by the expression
    itself or by the expression with a ["."] in front, and by nothing that
    starts with ["//"]. *)
Theorem waitForXPath_never_absolute (h : Handler) (f : Frame) (xpath : string)
    (options : WaitForSelectorOptions) :
  ∃ expression,
    head (trace h (waitForXPath f xpath options))
    = Some (getQueryHandlerAndSelector ("xpath/" +:+ expression))
    ∧ (expression = xpath ∨ expression = "." +:+ xpath)
    ∧ String.prefix "//" expression = false.
Proof.
  unfold waitForXPath.
  destruct (String.prefix "//" xpath) eqn:Hprefix.
  - exists ("." +:+ xpath). split; [reflexivity|]. split; [right; reflexivity|].
    destruct xpath as [|a [|b rest]]; reflexivity.
  - exists xpath. split; [reflexivity|]. split; [left; reflexivity|exact Hprefix].
Qed.
